(** * Lightly client: dataset download and symmetrised loss

    A shallow embedding of

    - [lightly/api/api_workflow_download_dataset.py]
      ([_DownloadDatasetMixin] and its module-level helpers), and
    - [lightly/loss/sym_neg_cos_sim_loss.py]
      ([SymNegCosineSimilarityLoss]),

    together with the properties of the natural-language specification
    that are settled on it, and further properties of the code.

    Python code that raises is embedded in a monad with exceptions; the
    REST API, the network, the file system, the image codec, the thread
    pool and the tensor library are collaborators: they are taken as
    parameters (records of operations) and every call to them is recorded
    in a trace of events, so that "no call is made before ..." and
    "exactly one warning is emitted" are statements about that trace. *)

From Stdlib Require Import ZArith Lia Reals Lra Ascii.
From stdpp Require Import base strings list gmap pretty sorting.

Local Open Scope Z_scope.

(** * Python exceptions *)

(** The classes of exceptions that occur in the two modules. All of them
    derive from Python's [Exception]: what a collaborator raises is an
    [Exception] instance, the class caught by [except Exception]. *)
Inductive ExceptionClass : Type :=
| ValueError
| IndexError
| RuntimeError
| TypeError
| OtherException (qualname : string).

(** An exception instance: its class and [str(e)]. *)
Record Exception : Type := Raise {
  exc_class : ExceptionClass;
  exc_str : string
}.

(** The outcome of evaluating Python code: an exception or a value. *)
Definition Res (A : Type) : Type := Exception + A.

(** * The monad of effectful Python code

    A computation reads and updates a store [St], may raise, and emits
    events [Ev] (calls to collaborators, warnings, prints). The events
    emitted by a run are returned in the order they happen. *)
Section Monad.
Context {St Ev : Type}.

Definition M (A : Type) : Type := St -> Res A * St * list Ev.

Definition ret {A} (a : A) : M A := fun s => (inr a, s, []).

Definition raise {A} (e : Exception) : M A := fun s => (inl e, s, []).

Definition bind {A B} (m : M A) (k : A -> M B) : M B :=
  fun s =>
    match m s with
    | (inl e, s1, evs) => (inl e, s1, evs)
    | (inr a, s1, evs) =>
        match k a s1 with
        | (r, s2, evs') => (r, s2, evs ++ evs')
        end
    end.

(** [try: m except Exception as e: h e] *)
Definition try_except {A} (m : M A) (h : Exception -> M A) : M A :=
  fun s =>
    match m s with
    | (inl e, s1, evs) =>
        match h e s1 with
        | (r, s2, evs') => (r, s2, evs ++ evs')
        end
    | (inr a, s1, evs) => (inr a, s1, evs)
    end.

Definition emit (ev : Ev) : M unit := fun s => (inr tt, s, [ev]).

(** A pure expression that may raise. *)
Definition lift {A} (r : Res A) : M A := fun s => (r, s, []).

(** The result, final store and emitted events of a run. *)
Definition result {A} (x : Res A * St * list Ev) : Res A := x.1.1.
Definition store {A} (x : Res A * St * list Ev) : St := x.1.2.
Definition events {A} (x : Res A * St * list Ev) : list Ev := x.2.
End Monad.

Arguments M : clear implicits.

Notation "'let*' x ':=' m 'in' k" := (bind m (fun x => k))
  (at level 10, x name, m at level 100, k at level 200).
Notation "'let*' ' p ':=' m 'in' k" := (bind m (fun x => match x with p => k end))
  (at level 10, p pattern, m at level 100, k at level 200).
Notation "m1 ';;;' m2" := (bind m1 (fun _ => m2))
  (at level 100, m2 at level 200, right associativity).

(** * Python built-ins used by the code *)

(** [l[i]] for a non-negative [i]: [IndexError] out of range. *)
Definition getitem {A} (l : list A) (i : nat) : Res A :=
  match l !! i with
  | Some x => inr x
  | None => inl (Raise IndexError "list index out of range")
  end.

(** The list comprehension [[l[i] for i in indices]]: elements are
    looked up from left to right and the first failing lookup raises. *)
Fixpoint getitems {A} (l : list A) (indices : list nat) : Res (list A) :=
  match indices with
  | [] => inr []
  | i :: rest =>
      match getitem l i with
      | inl e => inl e
      | inr x =>
          match getitems l rest with
          | inl e => inl e
          | inr xs => inr (x :: xs)
          end
      end
  end.

(** [all(results)] *)
Definition all (results : list bool) : bool := forallb (fun b => b) results.

(** [results.index(False)]: the first position holding the value,
    [ValueError] when there is none. *)
Fixpoint index_of (x : bool) (l : list bool) : option nat :=
  match l with
  | [] => None
  | y :: l' => if Bool.eqb y x then Some 0%nat else S <$> index_of x l'
  end.

Definition list_index (l : list bool) (x : bool) : Res nat :=
  match index_of x l with
  | Some k => inr k
  | None =>
      inl (Raise ValueError ((if x then "True" else "False") +:+ " is not in list"))
  end.

(** [sorted(l, key=key)]: Python's sort is stable; insertion from the
    right, placing an element before the first one whose key is not
    smaller, is a stable sort and so returns the same list. *)
Fixpoint insert_by_key {A} (key : A -> Z) (x : A) (l : list A) : list A :=
  match l with
  | [] => [x]
  | y :: l' =>
      if key x <=? key y then x :: y :: l' else y :: insert_by_key key x l'
  end.

Definition sorted {A} (l : list A) (key : A -> Z) : list A :=
  foldr (insert_by_key key) [] l.

(** * Data model *)

(** Modelled from the spec: the [ImageType] enumeration of the generated
    API client is not part of the sources; the spec says that it has a
    "full images downloadable" variant and that any other value blocks
    downloading, and the comment at line 81 names the other values:
    only thumbnails, or only metadata. *)
Inductive ImageType : Type :=
| FULL
| THUMBNAIL
| META.

Definition ImageType_eqb (a b : ImageType) : bool :=
  match a, b with
  | FULL, FULL | THUMBNAIL, THUMBNAIL | META, META => true
  | _, _ => false
  end.

Record DatasetData : Type := { img_type : ImageType }.

Module TagData.
Record t : Type := make { id : string; name : string; bit_mask_data : string }.
End TagData.

Module DatasetEmbeddingData.
Record t : Type := make {
  id : string;
  name : string;
  created_at : Z;
  is_processed : bool;
  is2d : bool
}.
End DatasetEmbeddingData.

(** * Latest default embedding *)

(** [_get_latest_default_embedding_data] *)
Definition _get_latest_default_embedding_data
    (embeddings : list DatasetEmbeddingData.t) : option DatasetEmbeddingData.t :=
  let default_embeddings :=
    List.filter (fun e => String.prefix "default" (DatasetEmbeddingData.name e))
                embeddings in
  match default_embeddings with
  | [] => None
  | _ => last (sorted default_embeddings DatasetEmbeddingData.created_at)
  end.

(** * Collaborators of the download client

    Everything [download_dataset] and the embedding helpers call outside
    the two modules: the REST API behind [self], [urllib], [PIL], [os],
    [tqdm] and the warnings machinery. Calls and warnings are events. *)
Inductive Event : Type :=
| GetDatasetById (dataset_id : string)
| GetAllTags
| GetSampleMappingsByDatasetId (dataset_id : string) (page_size : Z) (field : string)
| GetFilenames
| GetSampleImageReadUrlById (dataset_id sample_id type : string)
| UrlOpen (url : string)
| OsMakedirs (head : string)
| ImgSave (path : string)
| ImgClose
| GetEmbeddingsByDatasetId (dataset_id : string)
| GetEmbeddingsCsvReadUrlById (dataset_id embedding_id : string)
| RequestsGet (url : string)
| ThreadPoolExecutor (max_workers : Z)
| Print (msg : string)
| Tqdm (total : nat)
| TqdmUpdate (n : nat)
| Warn (msg : string).

(** The store: the state [W] of everything outside the process (server,
    network, directory tree), which the collaborators read and update,
    and the contents of the regular files the client writes. *)
Record Store (W : Type) : Type := {
  world : W;
  files : gmap string string
}.
Arguments world {W} _.
Arguments files {W} _.

(** The operations of the collaborators. An operation on the outside
    world takes the world and returns an outcome and the new world; [Img]
    is the type of decoded [PIL] images. *)
Record Collaborators (W Img : Type) : Type := {
  (* self._datasets_api.get_dataset_by_id(dataset_id) *)
  get_dataset_by_id : string -> W -> Res DatasetData * W;
  (* self.get_all_tags() *)
  get_all_tags : W -> Res (list TagData.t) * W;
  (* list(utils.paginate_endpoint(
       self._mappings_api.get_sample_mappings_by_dataset_id,
       page_size=..., dataset_id=..., field=...)) *)
  get_sample_mappings_by_dataset_id : string -> Z -> string -> W -> Res (list string) * W;
  (* self.get_filenames() *)
  get_filenames : W -> Res (list string) * W;
  (* BitMask.from_hex(bit_mask_data).to_indices() *)
  BitMask_from_hex_to_indices : string -> Res (list nat);
  (* self._samples_api.get_sample_image_read_url_by_id(dataset_id, sample_id, type) *)
  get_sample_image_read_url_by_id : string -> string -> string -> W -> Res string * W;
  (* urllib.request.urlopen(Request(read_url, method="GET")) and response.read() *)
  urlopen_read : string -> W -> Res string * W;
  (* Image.open(io.BytesIO(blob)) *)
  Image_open : string -> Res Img;
  (* os.path.join, os.path.split(path)[0], os.path.exists, os.makedirs *)
  os_path_join : string -> string -> string;
  os_path_split_head : string -> string;
  os_path_exists : string -> W -> bool;
  os_makedirs : string -> W -> Res unit * W;
  (* img.save(path): the bytes written *)
  img_save : Img -> string -> W -> Res string * W;
  (* bcolors.OKGREEN, bcolors.ENDC *)
  bcolors_OKGREEN : string;
  bcolors_ENDC : string;
  (* self._embeddings_api.get_embeddings_by_dataset_id(dataset_id) *)
  get_embeddings_by_dataset_id : string -> W -> Res (list DatasetEmbeddingData.t) * W;
  (* self._embeddings_api.get_embeddings_csv_read_url_by_id(dataset_id, embedding_id) *)
  get_embeddings_csv_read_url_by_id : string -> string -> W -> Res string * W;
  (* requests.get(url) inside download.download_and_write_file *)
  requests_get : string -> W -> Res string * W;
  (* ThreadPoolExecutor: the pending task that a free worker takes when n
     tasks are pending, as a position among them (modulo their number) *)
  pool_choice : nat -> nat
}.
Arguments get_dataset_by_id {W Img} _.
Arguments get_all_tags {W Img} _.
Arguments get_sample_mappings_by_dataset_id {W Img} _.
Arguments get_filenames {W Img} _.
Arguments BitMask_from_hex_to_indices {W Img} _.
Arguments get_sample_image_read_url_by_id {W Img} _.
Arguments urlopen_read {W Img} _.
Arguments Image_open {W Img} _.
Arguments os_path_join {W Img} _.
Arguments os_path_split_head {W Img} _.
Arguments os_path_exists {W Img} _.
Arguments os_makedirs {W Img} _.
Arguments img_save {W Img} _.
Arguments bcolors_OKGREEN {W Img} _.
Arguments bcolors_ENDC {W Img} _.
Arguments get_embeddings_by_dataset_id {W Img} _.
Arguments get_embeddings_csv_read_url_by_id {W Img} _.
Arguments requests_get {W Img} _.
Arguments pool_choice {W Img} _.

Section Client.
Context {W Img : Type}.
Variable api : Collaborators W Img.
(** [self.dataset_id] *)
Variable dataset_id : string.

Abbreviation Py := (M (Store W) Event).

(** A call to a collaborator that acts on the outside world: the call is
    logged, then its outcome is the operation's. *)
Definition call {A} (ev : Event) (op : W -> Res A * W) : Py A :=
  fun s =>
    match op (world s) with
    | (r, w) => (r, {| world := w; files := files s |}, [ev])
    end.

(** Reading the outside world. *)
Definition ask {A} (f : W -> A) : Py A := fun s => (inr (f (world s)), s, []).

(** Writing a regular file in mode ["wb"]: the path holds the new
    contents, whatever it held before. *)
Definition write_file (path contents : string) : Py unit :=
  fun s => (inr tt, {| world := world s; files := <[path := contents]> (files s) |}, []).

Definition warnings_warn (msg : string) : Py unit := emit (Warn msg).

(** [_make_dir_and_save_image] *)
Definition _make_dir_and_save_image (output_dir filename : string) (img : Img) : Py unit :=
  let path := os_path_join api output_dir filename in
  let head := os_path_split_head api path in
  (let* exists_ := ask (os_path_exists api head) in
   if negb exists_ then call (OsMakedirs head) (os_makedirs api head) else ret tt) ;;;
  (let* contents := call (ImgSave path) (img_save api img path) in
   write_file path contents) ;;;
  emit ImgClose.

(** [_get_image_from_read_url] *)
Definition _get_image_from_read_url (read_url : string) : Py Img :=
  let* blob := call (UrlOpen read_url) (urlopen_read api read_url) in
  let* img := lift (Image_open api blob) in
  ret img.

(** The body of the [try] in [lambda_]: the request of the signed read
    URL, the fetch and decoding of the image, and its save. *)
Definition download_image (output_dir sample_id filename : string) : Py bool :=
  let* read_url :=
    call (GetSampleImageReadUrlById dataset_id sample_id "full")
         (get_sample_image_read_url_by_id api dataset_id sample_id "full") in
  let* img := _get_image_from_read_url read_url in
  _make_dir_and_save_image output_dir filename img ;;;
  ret true.

(** [lambda_], the function mapped over the downloadables. The progress
    bar is updated under [tqdm_lock], which holds no other state. *)
Definition lambda_ (output_dir : string) (verbose : bool) (i : string * string) : Py bool :=
  let '(sample_id, filename) := i in
  let* success :=
    try_except
      (download_image output_dir sample_id filename)
      (fun e =>
         warnings_warn ("Downloading of image " +:+ filename +:+
                        " failed with error " +:+ exc_str e) ;;;
         ret false) in
  (if verbose then emit (TqdmUpdate 1) else ret tt) ;;;
  ret success.

(** [ThreadPoolExecutor(max_workers=max_workers)]: the constructor
    rejects a worker count that is not positive. *)
Definition ThreadPoolExecutor_init (max_workers : Z) : Py unit :=
  if max_workers <=? 0
  then raise (Raise ValueError "max_workers must be greater than 0")
  else emit (ThreadPoolExecutor max_workers).

(** The pool of a [ThreadPoolExecutor]: while tasks are pending, a free
    worker takes one of them and runs it, and the future of the task
    holds its result. The tasks are paired with their positions in the
    order of submission. Which pending task is taken next is the pool's
    choice: [choose n], when [n] tasks are pending, is a position among
    the pending tasks, modulo their number ([choose n = 0] is a single
    worker, which takes the tasks in the order of submission). A task is
    run as a whole: its events are not interleaved with those of another
    task. *)
Fixpoint run_pool {A B} (choose : nat -> nat) (fn : A -> Py B) (n : nat)
    (pending : list (nat * A)) : Py (list (nat * B)) :=
  match n with
  | O => ret []
  | S n' =>
      let j := (choose n mod length pending)%nat in
      match pending !! j with
      | None => ret []
      | Some (k, a) =>
          let* b := fn a in
          let* done := run_pool choose fn n' (delete j pending) in
          ret ((k, b) :: done)
      end
  end.

(** [list(executor.map(fn, iterable, chunksize=1))]: one task per
    element is submitted, the pool runs them, and the results are read
    from the futures in the order of submission, whatever the order in
    which the tasks were run. An exception of a task is raised by the
    call; in the model it ends the run of the pool, the tasks still
    pending being cancelled ([lambda_] never raises, so that the
    download never takes this path). *)
Definition executor_map {A B} (choose : nat -> nat) (fn : A -> Py B)
    (iterable : list A) : Py (list B) :=
  let n := length iterable in
  let* done := run_pool choose fn n (zip (seq 0 n) iterable) in
  let futures : gmap nat B := list_to_map done in
  ret (omap (fun k => futures !! k) (seq 0 n)).

(** The run of tasks, paired with their positions, one after the other
    in the order of a list: what a pool does once its choices are
    made. *)
Fixpoint run_tasks {A B} (fn : A -> Py B) (order : list (nat * A))
    : Py (list (nat * B)) :=
  match order with
  | [] => ret []
  | (k, a) :: rest =>
      let* b := fn a in
      let* done := run_tasks fn rest in
      ret ((k, b) :: done)
  end.

(** The worker count of lines 113-115. *)
Definition clamp_max_workers (sample_ids : list string) (max_workers : Z) : Z :=
  let max_workers := Z.min (Z.of_nat (length sample_ids)) max_workers in
  let max_workers := Z.max max_workers 1 in
  max_workers.

(** [download_dataset], lines 111-156: the download of the selected
    samples. *)
Definition download_all (output_dir : string) (sample_ids filenames : list string)
    (max_workers : Z) (verbose : bool) : Py unit :=
  let downloadables := zip sample_ids filenames in
  let max_workers := clamp_max_workers sample_ids max_workers in
  (if verbose then
     emit (Print ("Downloading " +:+ bcolors_OKGREEN api +:+
                  pretty (length sample_ids) +:+ bcolors_ENDC api +:+
                  " images (with " +:+ bcolors_OKGREEN api +:+
                  pretty max_workers +:+ bcolors_ENDC api +:+ " workers):")) ;;;
     emit (Tqdm (length sample_ids))
   else ret tt) ;;;
  let* results :=
    (ThreadPoolExecutor_init max_workers ;;;
     executor_map (pool_choice api) (lambda_ output_dir verbose) downloadables) in
  if negb (all results) then
    let msg := "Warning: Unsuccessful download! " in
    let* k := lift (list_index results false) in
    let msg := msg +:+ "Failed at image: " +:+ pretty k in
    warnings_warn msg
  else ret tt.

(** [download_dataset], lines 78-109: the checks, the listing and the
    selection of the samples of the tag. Returns the locals [indices],
    [sample_ids] and [filenames] as they are at line 109. *)
Definition resolve_tag (tag_name : string) : Py (list nat * list string * list string) :=
  let* dataset := call (GetDatasetById dataset_id) (get_dataset_by_id api dataset_id) in
  if negb (ImageType_eqb (img_type dataset) FULL) then
    raise (Raise ValueError
             ("Dataset with id " +:+ dataset_id +:+ " has no downloadable images!"))
  else
    let* available_tags := call GetAllTags (get_all_tags api) in
    let* tag :=
      match List.find (fun tag => String.eqb (TagData.name tag) tag_name) available_tags with
      | Some tag => ret tag
      | None =>
          raise (Raise ValueError
                   ("Dataset with id " +:+ dataset_id +:+ " has no tag " +:+
                    tag_name +:+ "!"))
      end in
    let* sample_ids :=
      call (GetSampleMappingsByDatasetId dataset_id 25000 "_id")
           (get_sample_mappings_by_dataset_id api dataset_id 25000 "_id") in
    let* indices := lift (BitMask_from_hex_to_indices api (TagData.bit_mask_data tag)) in
    let* sample_ids := lift (getitems sample_ids indices) in
    let* filenames_on_server := call GetFilenames (get_filenames api) in
    let* filenames := lift (getitems filenames_on_server indices) in
    ret (indices, sample_ids, filenames).

(** [download_dataset] *)
Definition download_dataset (output_dir tag_name : string) (max_workers : Z)
    (verbose : bool) : Py unit :=
  let* '(_, sample_ids, filenames) := resolve_tag tag_name in
  download_all output_dir sample_ids filenames max_workers verbose.

(** [get_all_embedding_data] *)
Definition get_all_embedding_data : Py (list DatasetEmbeddingData.t) :=
  call (GetEmbeddingsByDatasetId dataset_id) (get_embeddings_by_dataset_id api dataset_id).

(** Modelled from the spec: [download.download_and_write_file] is not
    part of the sources; the spec says that the CSV is downloaded via the
    signed URL to [output_path], overwriting any existing file. *)
Definition download_and_write_file (url output_path : string) : Py unit :=
  let* blob := call (RequestsGet url) (requests_get api url) in
  write_file output_path blob.

(** [download_embeddings_csv_by_id] *)
Definition download_embeddings_csv_by_id (embedding_id output_path : string) : Py unit :=
  let* read_url :=
    call (GetEmbeddingsCsvReadUrlById dataset_id embedding_id)
         (get_embeddings_csv_read_url_by_id api dataset_id embedding_id) in
  download_and_write_file read_url output_path.

(** [download_embeddings_csv] *)
Definition download_embeddings_csv (output_path : string) : Py unit :=
  let* embeddings := get_all_embedding_data in
  let last_embedding := _get_latest_default_embedding_data embeddings in
  match last_embedding with
  | None =>
      raise (Raise RuntimeError
               ("Could not find embeddings for dataset with id '" +:+ dataset_id +:+ "'."))
  | Some last_embedding =>
      download_embeddings_csv_by_id (DatasetEmbeddingData.id last_embedding) output_path
  end.

(** [get_embedding_data_by_name] *)
Definition get_embedding_data_by_name (name : string) : Py DatasetEmbeddingData.t :=
  let* embeddings := get_all_embedding_data in
  match
    List.find
      (fun embedding_data => String.eqb (DatasetEmbeddingData.name embedding_data) name)
      embeddings
  with
  | Some embedding_data => ret embedding_data
  | None =>
      raise (Raise ValueError
               ("There are no embeddings with name '" +:+ name +:+
                "' for dataset with id '" +:+ dataset_id +:+ "'."))
  end.
End Client.

(** * Symmetrised negative cosine similarity loss *)

(** The tensor library: [T] is the type of tensors and [S] the type of
    the 0-dimensional tensors that [Tensor.mean()] returns. *)
Class Torch (T S : Type) : Type := {
  (* iter(tensor): the slices along the first dimension *)
  unbind0 : T -> Res (list T);
  (* torch.nn.functional.cosine_similarity(x, y, dim=-1) *)
  cosine_similarity : T -> T -> Res T;
  (* y.detach() *)
  detach : T -> T;
  (* c.mean() *)
  mean : T -> S;
  (* -v, v / 2, a + b *)
  neg : S -> S;
  div2 : S -> S;
  add : S -> S -> S
}.

(** What [forward] may be called with: a tuple (or list) of tensors, or
    a tensor. *)
Inductive PyObject (T : Type) : Type :=
| Tuple (items : list T)
| Tensor (t : T).
Arguments Tuple {T} _.
Arguments Tensor {T} _.

Section Loss.
Context {T S : Type} `{Torch T S}.

(** The events of the loss are the similarities computed, with their
    operands; there is no store. *)
Abbreviation PyLoss := (M unit (T * T)).

(** [iter(o)] *)
Definition iter (o : PyObject T) : Res (list T) :=
  match o with
  | Tuple items => inr items
  | Tensor t => unbind0 t
  end.

(** The unpacking [a, b = o]. *)
Definition unpack2 (o : PyObject T) : Res (T * T) :=
  match iter o with
  | inl e => inl e
  | inr [a; b] => inr (a, b)
  | inr items =>
      if (length items <? 2)%nat then
        inl (Raise ValueError
               ("not enough values to unpack (expected 2, got " +:+
                pretty (length items) +:+ ")"))
      else inl (Raise ValueError "too many values to unpack (expected 2)")
  end.

(** [_neg_cosine_simililarity] *)
Definition _neg_cosine_simililarity (x y : T) : PyLoss S :=
  let* c := (fun s => (cosine_similarity x (detach y), s, [(x, detach y)])) in
  let v := neg (mean c) in
  ret v.

(** [forward] *)
Definition forward (out0 out1 : PyObject T) : PyLoss S :=
  let* '(z0, p0) := lift (unpack2 out0) in
  let* '(z1, p1) := lift (unpack2 out1) in
  let* a := _neg_cosine_simililarity p0 z1 in
  let* b := _neg_cosine_simililarity p1 z0 in
  let loss := add (div2 a) (div2 b) in
  ret loss.
End Loss.

(** * A reference interpretation of the tensor library

    Tensors of real numbers, given by their shape and their entries, with
    the documented meaning of the primitives in exact arithmetic:
    operands are broadcast, [cosine_similarity] reduces the last
    dimension and clamps each norm from below by [eps = 1e-8], iteration
    yields the slices along the first dimension. It instantiates the
    statements about the loss on concrete tensors. *)
Record tensor : Type := { shape : list nat; item : list nat -> R }.

(** Broadcasting of two shapes given last dimension first. *)
Fixpoint broadcast_rev (a b : list nat) : option (list nat) :=
  match a, b with
  | [], _ => Some b
  | _, [] => Some a
  | x :: a', y :: b' =>
      match broadcast_rev a' b' with
      | None => None
      | Some r =>
          if (x =? y)%nat then Some (x :: r)
          else if (x =? 1)%nat then Some (y :: r)
          else if (y =? 1)%nat then Some (x :: r)
          else None
      end
  end.

Definition broadcast_shapes (a b : list nat) : option (list nat) :=
  reverse <$> broadcast_rev (reverse a) (reverse b).

(** The entry of a tensor of shape [shape] that an index of the
    broadcast shape reads. *)
Definition expand_index (shape idx : list nat) : list nat :=
  zip_with (fun d i => if (d =? 1)%nat then 0%nat else i) shape
           (drop (length idx - length shape) idx).

Fixpoint indices_of (shape : list nat) : list (list nat) :=
  match shape with
  | [] => [[]]
  | d :: sh => flat_map (fun i => map (cons i) (indices_of sh)) (seq 0 d)
  end.

Definition Rsum (l : list R) : R := foldr Rplus 0%R l.

Definition eps : R := (/ 100000000)%R.

Definition real_cosine_similarity (x y : tensor) : Res tensor :=
  match broadcast_shapes (shape x) (shape y) with
  | None =>
      inl (Raise RuntimeError
             "The size of tensor a must match the size of tensor b")
  | Some sh =>
      let d := default 1%nat (last sh) in
      inr {| shape := removelast sh;
             item := fun idx =>
               let xs :=
                 map (fun k => item x (expand_index (shape x) (idx ++ [k]))) (seq 0 d) in
               let ys :=
                 map (fun k => item y (expand_index (shape y) (idx ++ [k]))) (seq 0 d) in
               (Rsum (zip_with Rmult xs ys) /
                (Rmax (sqrt (Rsum (zip_with Rmult xs xs))) eps *
                 Rmax (sqrt (Rsum (zip_with Rmult ys ys))) eps))%R |}
  end.

Definition real_unbind0 (t : tensor) : Res (list tensor) :=
  match shape t with
  | [] => inl (Raise TypeError "iteration over a 0-d tensor")
  | d :: sh =>
      inr (map (fun i => {| shape := sh; item := fun idx => item t (i :: idx) |})
               (seq 0 d))
  end.

Definition real_mean (t : tensor) : R :=
  (Rsum (map (item t) (indices_of (shape t))) /
   INR (length (indices_of (shape t))))%R.

#[export] Instance RealTorch : Torch tensor R := {
  unbind0 := real_unbind0;
  cosine_similarity := real_cosine_similarity;
  detach := fun y => y;
  mean := real_mean;
  neg := Ropp;
  div2 := fun v => (v / 2)%R;
  add := Rplus
}.

(** [torch.ones(shape)] *)
Definition ones (shape : list nat) : tensor :=
  {| shape := shape; item := fun _ => 1%R |}.

(** * Decoding of tag bitmasks *)

(** The value of a hexadecimal digit, from its character code: the
    digits, then the lower-case and the upper-case letters a to f. *)
Definition hex_digit (c : Ascii.ascii) : option N :=
  let code := N_of_ascii c in
  if (48 <=? code)%N && (code <=? 57)%N then Some (code - 48)%N
  else if (97 <=? code)%N && (code <=? 102)%N then Some (code - 87)%N
  else if (65 <=? code)%N && (code <=? 70)%N then Some (code - 55)%N
  else None.

Fixpoint hex_to_N (s : string) (acc : N) : option N :=
  match s with
  | EmptyString => Some acc
  | String c s' =>
      match hex_digit c with
      | None => None
      | Some d => hex_to_N s' (16 * acc + d)%N
      end
  end.

(** Modelled from the spec: [BitMask] is not part of the sources; the
    spec says that a hexadecimal string (no sign, no prefix, most
    significant digit first, four bits per digit) decodes to the
    positions of its set bits in ascending order, and that a character
    that is not a hexadecimal digit is a decoding error. *)
Definition BitMask_decode (hexstring : string) : Res (list nat) :=
  match hexstring, hex_to_N hexstring 0 with
  | String _ _, Some x =>
      inr (List.filter (fun i => N.testbit x (N.of_nat i)) (seq 0 (N.to_nat (N.size x))))
  | _, _ =>
      inl (Raise ValueError
             ("invalid literal for int() with base 16: '" +:+ hexstring +:+ "'"))
  end.

(** * A test double of the collaborators

    A server holding fixed data, whose world state counts the requests it
    has served; images are represented by their bytes; the blobs of the
    samples listed in [demo_corrupt] do not decode. *)
Record DemoServer : Type := {
  demo_img_type : ImageType;
  demo_tags : list TagData.t;
  demo_sample_ids : list string;
  demo_filenames : list string;
  demo_corrupt : list string;
  demo_embeddings : list DatasetEmbeddingData.t;
  demo_pool_choice : nat -> nat
}.

(** The part of a path before its last slash. *)
Fixpoint demo_dirname_aux (path : string) : option string :=
  match path with
  | EmptyString => None
  | String c rest =>
      match demo_dirname_aux rest with
      | Some head => Some (String c head)
      | None => if Ascii.eqb c "/" then Some EmptyString else None
      end
  end.

Definition demo_dirname (path : string) : string :=
  default EmptyString (demo_dirname_aux path).

Definition demo_blob (sample_id : string) : string :=
  "image@https://signed/" +:+ sample_id.

Definition demo (srv : DemoServer) : Collaborators nat string := {|
  get_dataset_by_id := fun _ w => (inr {| img_type := demo_img_type srv |}, S w);
  get_all_tags := fun w => (inr (demo_tags srv), S w);
  get_sample_mappings_by_dataset_id := fun _ _ _ w => (inr (demo_sample_ids srv), S w);
  get_filenames := fun w => (inr (demo_filenames srv), S w);
  BitMask_from_hex_to_indices := BitMask_decode;
  get_sample_image_read_url_by_id :=
    fun _ sample_id _ w => (inr ("https://signed/" +:+ sample_id), S w);
  urlopen_read := fun url w => (inr ("image@" +:+ url), S w);
  Image_open :=
    fun blob =>
      if existsb (fun sample_id => String.eqb blob (demo_blob sample_id)) (demo_corrupt srv)
      then inl (Raise (OtherException "PIL.UnidentifiedImageError")
                      "cannot identify image file")
      else inr blob;
  os_path_join := fun a b => a +:+ "/" +:+ b;
  os_path_split_head := demo_dirname;
  os_path_exists := fun _ _ => true;
  os_makedirs := fun _ w => (inr tt, w);
  img_save := fun img _ w => (inr img, w);
  bcolors_OKGREEN := "<green>";
  bcolors_ENDC := "<end>";
  get_embeddings_by_dataset_id := fun _ w => (inr (demo_embeddings srv), S w);
  get_embeddings_csv_read_url_by_id :=
    fun _ embedding_id w => (inr ("https://signed/csv/" +:+ embedding_id), S w);
  requests_get := fun url w => (inr ("csv@" +:+ url), S w);
  pool_choice := demo_pool_choice srv
|}.

Definition store0 : Store nat := {| world := 0%nat; files := ∅ |}.

(** * Classification of events *)

(** The aggregate warning of line 156. *)
Definition is_aggregate_warning (ev : Event) : bool :=
  match ev with
  | Warn msg => String.prefix "Warning: Unsuccessful download! " msg
  | _ => false
  end.

Definition is_warning (ev : Event) : bool :=
  match ev with
  | Warn _ => true
  | _ => false
  end.

(** The request of a signed read URL, the first step of an item. *)
Definition is_read_url_request (ev : Event) : bool :=
  match ev with
  | GetSampleImageReadUrlById _ _ _ => true
  | _ => false
  end.

Definition is_thread_pool (ev : Event) : bool :=
  match ev with
  | ThreadPoolExecutor _ => true
  | _ => false
  end.

(** The listing of sample ids and filenames, and everything the
    download does. *)
Definition is_listing_or_download (ev : Event) : bool :=
  match ev with
  | GetSampleMappingsByDatasetId _ _ _ | GetFilenames
  | GetSampleImageReadUrlById _ _ _ | UrlOpen _
  | OsMakedirs _ | ImgSave _ | ImgClose | ThreadPoolExecutor _ => true
  | _ => false
  end.

(** The download proper: anything from the creation of the pool on. *)
Definition is_download (ev : Event) : bool :=
  match ev with
  | GetSampleImageReadUrlById _ _ _ | UrlOpen _
  | OsMakedirs _ | ImgSave _ | ImgClose | ThreadPoolExecutor _ => true
  | _ => false
  end.

(** * Auxiliary notions and example data *)

(** [e] is the last element of [l] and no key in [l] exceeds its key. *)
Definition last_is_max {A : Type} (key : A -> Z) (l : list A) (e : A) : Prop :=
  last l = Some e /\ forall y, In y l -> key y <= key e.

Definition is_default (e : DatasetEmbeddingData.t) : bool :=
  String.prefix "default" (DatasetEmbeddingData.name e).

(** The descriptors of testable property 6 of the specification. *)
Definition embeddings_example : list DatasetEmbeddingData.t :=
  [ DatasetEmbeddingData.make "e1" "default_a" 100 true false;
    DatasetEmbeddingData.make "e2" "default_b" 200 true false;
    DatasetEmbeddingData.make "e3" "custom" 300 true false ].

(** The lists of testable property 3: the tag's bitmask ["a"] has bits 1
    and 3 set. *)
Definition srv_index_alignment : DemoServer := {|
  demo_img_type := FULL;
  demo_tags := [TagData.make "t0" "other-tag" "3"; TagData.make "t1" "initial-tag" "a"];
  demo_sample_ids := ["a"; "b"; "c"; "d"];
  demo_filenames := ["w"; "x"; "y"; "z"];
  demo_corrupt := [];
  demo_embeddings := embeddings_example;
  demo_pool_choice := fun _ => 0%nat
|}.

(** A dataset of which only thumbnails are stored. *)
Definition srv_thumbnails : DemoServer := {|
  demo_img_type := THUMBNAIL;
  demo_tags := [TagData.make "t1" "initial-tag" "a"];
  demo_sample_ids := ["a"; "b"; "c"; "d"];
  demo_filenames := ["w"; "x"; "y"; "z"];
  demo_corrupt := [];
  demo_embeddings := [];
  demo_pool_choice := fun _ => 0%nat
|}.

(** A tag with five bits set on a dataset that lists four sample ids. *)
Definition srv_short_sample_ids : DemoServer := {|
  demo_img_type := FULL;
  demo_tags := [TagData.make "t1" "initial-tag" "1f"];
  demo_sample_ids := ["s0"; "s1"; "s2"; "s3"];
  demo_filenames := ["f0.png"; "f1.png"; "f2.png"; "f3.png"; "f4.png"];
  demo_corrupt := [];
  demo_embeddings := [];
  demo_pool_choice := fun _ => 0%nat
|}.

(** A tag with five bits set on a dataset that lists four filenames. *)
Definition srv_short_filenames : DemoServer := {|
  demo_img_type := FULL;
  demo_tags := [TagData.make "t1" "initial-tag" "1f"];
  demo_sample_ids := ["s0"; "s1"; "s2"; "s3"; "s4"];
  demo_filenames := ["f0.png"; "f1.png"; "f2.png"; "f3.png"];
  demo_corrupt := [];
  demo_embeddings := [];
  demo_pool_choice := fun _ => 0%nat
|}.

(** Testable property 5: five items, the image of the item at index 2
    does not decode. *)
Definition srv_partial_failure : DemoServer := {|
  demo_img_type := FULL;
  demo_tags := [TagData.make "t1" "initial-tag" "1f"];
  demo_sample_ids := ["s0"; "s1"; "s2"; "s3"; "s4"];
  demo_filenames := ["f0.png"; "f1.png"; "f2.png"; "f3.png"; "f4.png"];
  demo_corrupt := ["s2"];
  demo_embeddings := [];
  demo_pool_choice := fun _ => 0%nat
|}.

(** Five items of which those at indices 2 and 4 do not decode, on a
    pool whose worker always takes the pending task submitted last: the
    item at index 4 is the first to fail. *)
Definition srv_last_submitted_first : DemoServer := {|
  demo_img_type := FULL;
  demo_tags := [TagData.make "t1" "initial-tag" "1f"];
  demo_sample_ids := ["s0"; "s1"; "s2"; "s3"; "s4"];
  demo_filenames := ["f0.png"; "f1.png"; "f2.png"; "f3.png"; "f4.png"];
  demo_corrupt := ["s2"; "s4"];
  demo_embeddings := [];
  demo_pool_choice := fun n => (n - 1)%nat
|}.

(** The text of the warning of line 139 and of the warning of line 156. *)
Definition item_warning (filename : string) (e : Exception) : string :=
  "Downloading of image " +:+ filename +:+ " failed with error " +:+ exc_str e.

Definition aggregate_warning (k : nat) : string :=
  "Warning: Unsuccessful download! " +:+ "Failed at image: " +:+ pretty k.

(** What an item emits after its [try] statement. *)
Definition tqdm_events (verbose : bool) : list Event :=
  if verbose then [TqdmUpdate 1] else [].

(** The steps of one download after the request of the read URL. *)
Definition is_item_step (ev : Event) : bool :=
  match ev with
  | UrlOpen _ | OsMakedirs _ | ImgSave _ | ImgClose => true
  | _ => false
  end.

(** The request of the read URL of an item. *)
Definition read_url_request (dataset_id : string) (i : string * string) : Event :=
  GetSampleImageReadUrlById dataset_id i.1 "full".

(** What [download_dataset] emits at lines 117-123, before the pool. *)
Definition header_events {W Img : Type} (api : Collaborators W Img)
    (sample_ids : list string) (max_workers : Z) (verbose : bool) : list Event :=
  if verbose then
    [Print ("Downloading " +:+ bcolors_OKGREEN api +:+
            pretty (length sample_ids) +:+ bcolors_ENDC api +:+
            " images (with " +:+ bcolors_OKGREEN api +:+
            pretty (clamp_max_workers sample_ids max_workers) +:+
            bcolors_ENDC api +:+ " workers):");
     Tqdm (length sample_ids)]
  else [].

(** What it emits at lines 153-156, after the pool. *)
Definition aggregate_events (results : list bool) : list Event :=
  match index_of false results with
  | Some k => [Warn (aggregate_warning k)]
  | None => []
  end.

(** A step of the download of one item raises [e] in store [s]: the
    request of the signed URL, or the HTTP fetch, or the decoding of the
    image, or the creation of the directory, or the write of the file. *)
Definition step_raises {W Img : Type} (api : Collaborators W Img)
    (dataset_id output_dir sample_id filename : string) (s : Store W)
    (e : Exception) : Prop :=
  let path := os_path_join api output_dir filename in
  let head := os_path_split_head api path in
  (exists w1,
     get_sample_image_read_url_by_id api dataset_id sample_id "full" (world s)
       = (inl e, w1)) \/
  exists read_url w1,
    get_sample_image_read_url_by_id api dataset_id sample_id "full" (world s)
      = (inr read_url, w1) /\
    ((exists w2, urlopen_read api read_url w1 = (inl e, w2)) \/
     exists blob w2,
       urlopen_read api read_url w1 = (inr blob, w2) /\
       (Image_open api blob = inl e \/
        exists img,
          Image_open api blob = inr img /\
          ((os_path_exists api head w2 = false /\
            exists w3, os_makedirs api head w2 = (inl e, w3)) \/
           exists w3,
             (os_path_exists api head w2 = true /\ w3 = w2 \/
              os_path_exists api head w2 = false /\
              os_makedirs api head w2 = (inr tt, w3)) /\
             exists w4, img_save api img path w3 = (inl e, w4)))).

(** A store in which the path of the CSV already holds a file. *)
Definition store_stale_csv : Store nat :=
  {| world := 0%nat; files := {[ "/tmp/embeddings.csv" := "stale" ]} |}.

(** A tensor whose entry at an index is one more than the sum of the
    index. *)
Definition ramp (shape : list nat) : tensor :=
  {| shape := shape; item := fun idx => INR (S (foldr Nat.add 0%nat idx)) |}.

(** [e] is the element of [l] that a stable sort by [key] puts last: no
    key of [l] exceeds its key, and the elements after it in [l] have
    smaller keys. *)
Definition last_of_the_largest {A : Type} (key : A -> Z) (l : list A) (e : A) : Prop :=
  exists before after,
    l = before ++ e :: after /\
    (forall y, In y before -> key y <= key e) /\
    (forall y, In y after -> key y < key e).

(** The four requests of lines 78-109, in the order of the calls. *)
Definition listing_events (dataset_id : string) : list Event :=
  [GetDatasetById dataset_id; GetAllTags;
   GetSampleMappingsByDatasetId dataset_id 25000 "_id"; GetFilenames].

(** The announcement of the download and the progress bar (lines
    117-123 and 143-146), and everything else. *)
Definition is_progress (ev : Event) : bool :=
  match ev with
  | Print _ | Tqdm _ | TqdmUpdate _ => true
  | _ => false
  end.

Definition is_not_progress (ev : Event) : bool := negb (is_progress ev).

(** The warning of line 139. *)
Definition is_item_warning (ev : Event) : bool :=
  match ev with
  | Warn msg => String.prefix "Downloading of image " msg
  | _ => false
  end.

(** The number of items that failed. *)
Definition count_false (results : list bool) : nat := length (List.filter negb results).

(** Two tags with the same name and different bitmasks: bits 0 and 1,
    and bits 2 and 3. *)
Definition srv_duplicate_tags : DemoServer := {|
  demo_img_type := FULL;
  demo_tags := [TagData.make "t0" "initial-tag" "3"; TagData.make "t1" "initial-tag" "c"];
  demo_sample_ids := ["a"; "b"; "c"; "d"];
  demo_filenames := ["w"; "x"; "y"; "z"];
  demo_corrupt := [];
  demo_embeddings := embeddings_example;
  demo_pool_choice := fun _ => 0%nat
|}.

(** * Properties of the built-ins *)

Section Sorted.
Context {A : Type} (key : A -> Z).

Lemma insert_by_key_In (x y : A) (l : list A) :
  In y (insert_by_key key x l) <-> y = x \/ In y l.
Proof.
  induction l as [|z l IH]; simpl.
  - intuition congruence.
  - destruct (key x <=? key z); simpl; [intuition congruence|].
    rewrite IH. intuition congruence.
Qed.

Lemma sorted_In (y : A) (l : list A) : In y (sorted l key) <-> In y l.
Proof.
  induction l as [|x l IH]; simpl; [tauto|].
  rewrite insert_by_key_In, IH. intuition congruence.
Qed.

Lemma insert_by_key_last (x : A) (l : list A) (e : A) :
  last_is_max key l e ->
  last_is_max key (insert_by_key key x l) (if key x <=? key e then e else x).
Proof.
  revert e. induction l as [|y l IH]; intros e [Hlast Hmax]; [discriminate|].
  simpl. destruct (Z.leb_spec (key x) (key y)) as [Hxy|Hxy].
  - assert (Hxe : key x <= key e) by (pose proof (Hmax y (or_introl eq_refl)); lia).
    rewrite (proj2 (Z.leb_le _ _) Hxe). split; [exact Hlast|].
    intros z [->|Hz]; [lia|auto].
  - destruct l as [|y' l].
    + injection Hlast as <-. rewrite (proj2 (Z.leb_gt _ _) Hxy).
      split; [reflexivity|]. intros z [->|[->|[]]]; lia.
    + assert (Hl : last_is_max key (y' :: l) e).
      { split; [exact Hlast|]. intros z Hz. apply Hmax. now right. }
      specialize (IH e Hl). destruct IH as [IHlast IHmax].
      split.
      * simpl in IHlast |- *. destruct (key x <=? key y'); exact IHlast.
      * intros z [<-|Hz]; [|auto].
        pose proof (Hmax y (or_introl eq_refl)).
        destruct (Z.leb_spec (key x) (key e)); lia.
Qed.

Lemma sorted_last (l : list A) :
  l <> [] -> exists e, last_is_max key (sorted l key) e.
Proof.
  induction l as [|x l IH]; [congruence|]. intros _.
  destruct l as [|x' l].
  - exists x. split; [reflexivity|]. intros y [->|[]]. lia.
  - destruct IH as [e He]; [congruence|].
    eexists. apply (insert_by_key_last x _ e He).
Qed.
End Sorted.

(** * Decoding of tag bitmasks: properties *)

Lemma filter_seq_ascending (p : nat -> bool) (a m : nat) :
  StronglySorted lt (List.filter p (seq a m)).
Proof.
  revert a. induction m as [|m IH]; intros a; simpl; [constructor|].
  destruct (p a); [|apply IH].
  constructor; [apply IH|].
  apply List.Forall_forall. intros i Hi.
  apply filter_In in Hi as [Hi _]. apply in_seq in Hi. lia.
Qed.

(** The decoded positions are in ascending order, as the specification
    says. *)
Lemma BitMask_decode_ascending (hexstring : string) (indices : list nat) :
  BitMask_decode hexstring = inr indices -> StronglySorted lt indices.
Proof.
  unfold BitMask_decode. destruct hexstring as [|c rest]; [discriminate|].
  destruct (hex_to_N (String c rest) 0) as [x|]; [|discriminate].
  intros [= <-]. apply filter_seq_ascending.
Qed.

Example BitMask_decode_examples :
  BitMask_decode "a" = inr [1; 3]%nat /\
  BitMask_decode "1f" = inr [0; 1; 2; 3; 4]%nat /\
  BitMask_decode "F0" = inr [4; 5; 6; 7]%nat /\
  BitMask_decode "0" = inr [] /\
  BitMask_decode "1g" =
    inl (Raise ValueError "invalid literal for int() with base 16: '1g'").
Proof. repeat split. Qed.

(** * Latest default embedding: properties *)

Lemma latest_default_Some (embeddings : list DatasetEmbeddingData.t) (e : DatasetEmbeddingData.t) :
  _get_latest_default_embedding_data embeddings = Some e ->
  In e embeddings /\ is_default e = true /\
  forall e', In e' embeddings -> is_default e' = true ->
             DatasetEmbeddingData.created_at e' <= DatasetEmbeddingData.created_at e.
Proof.
  unfold _get_latest_default_embedding_data. fold is_default.
  destruct (List.filter is_default embeddings) as [|d ds] eqn:Hf; [discriminate|].
  intros Hlast.
  destruct (sorted_last DatasetEmbeddingData.created_at (d :: ds)) as [m [Hm Hmax]];
    [congruence|].
  rewrite Hlast in Hm. injection Hm as <-.
  assert (Hin : In e (d :: ds)).
  { apply (sorted_In DatasetEmbeddingData.created_at). apply list_elem_of_In.
    apply last_Some_elem_of. exact Hlast. }
  rewrite <- Hf in Hin. apply filter_In in Hin as [Hin Hdef].
  repeat split; [exact Hin|exact Hdef|].
  intros e' Hin' Hdef'. apply Hmax.
  apply sorted_In. rewrite <- Hf. apply filter_In. auto.
Qed.

Lemma latest_default_None (embeddings : list DatasetEmbeddingData.t) :
  _get_latest_default_embedding_data embeddings = None <->
  forall e, In e embeddings -> is_default e = false.
Proof.
  unfold _get_latest_default_embedding_data. fold is_default.
  destruct (List.filter is_default embeddings) as [|d ds] eqn:Hf.
  - split; [intros _ e Hin|reflexivity].
    destruct (is_default e) eqn:He; [|reflexivity].
    assert (Hc : In e (List.filter is_default embeddings)) by (apply filter_In; auto).
    rewrite Hf in Hc. destruct Hc.
  - destruct (sorted_last DatasetEmbeddingData.created_at (d :: ds)) as [m [Hm _]];
      [congruence|].
    rewrite Hm. split; [discriminate|]. intros Hnone.
    assert (Hd : In d (List.filter is_default embeddings)) by (rewrite Hf; now left).
    apply filter_In in Hd as [Hin Hdef]. rewrite (Hnone d Hin) in Hdef. discriminate.
Qed.

(** C6. For every list of embedding descriptors,
    [_get_latest_default_embedding_data] returns a descriptor of the list
    whose name starts with ["default"] and whose creation timestamp is
    maximal among the descriptors with such a name; it returns [None]
    exactly when no descriptor has such a name (so it returns a
    descriptor as soon as one has); and for the descriptors named
    default_a (created at 100), default_b (200) and custom (300) it
    returns the one named default_b. *)
Theorem latest_default_embedding_is_max (embeddings : list DatasetEmbeddingData.t) :
  (forall e, _get_latest_default_embedding_data embeddings = Some e ->
     In e embeddings /\
     String.prefix "default" (DatasetEmbeddingData.name e) = true /\
     forall e', In e' embeddings ->
       String.prefix "default" (DatasetEmbeddingData.name e') = true ->
       DatasetEmbeddingData.created_at e' <= DatasetEmbeddingData.created_at e) /\
  (_get_latest_default_embedding_data embeddings = None <->
   forall e, In e embeddings ->
     String.prefix "default" (DatasetEmbeddingData.name e) = false) /\
  DatasetEmbeddingData.name <$> _get_latest_default_embedding_data embeddings_example
  = Some "default_b".
Proof.
  split; [|split].
  - intros e He. exact (latest_default_Some embeddings e He).
  - exact (latest_default_None embeddings).
  - reflexivity.
Qed.

(** Among default descriptors created at the same time, the stable sort
    keeps the order of the list and the last of them is returned. *)
Example latest_default_ties :
  DatasetEmbeddingData.id <$>
    _get_latest_default_embedding_data
      [ DatasetEmbeddingData.make "e1" "default_a" 200 true false;
        DatasetEmbeddingData.make "e2" "default_b" 200 true false;
        DatasetEmbeddingData.make "e3" "default_c" 100 true false ]
  = Some "e2".
Proof. reflexivity. Qed.

(** * Properties of indexing *)

Section Getitems.
Context {A : Type}.

Lemma getitems_in_range (l : list A) (indices : list nat) :
  Forall (fun i => (i < length l)%nat) indices ->
  exists sub, getitems l indices = inr sub /\
              map Some sub = map (fun i => l !! i) indices /\
              length sub = length indices.
Proof.
  induction 1 as [|i indices Hi _ IH]; simpl.
  - exists []. auto.
  - destruct IH as (sub & -> & Hmap & Hlen).
    unfold getitem. destruct (lookup_lt_is_Some_2 l i Hi) as [x Hx]. rewrite Hx.
    exists (x :: sub). simpl. rewrite Hmap, Hlen. auto.
Qed.

Lemma getitems_out_of_range (l : list A) (indices : list nat) :
  Exists (fun i => (length l <= i)%nat) indices ->
  getitems l indices = inl (Raise IndexError "list index out of range").
Proof.
  induction 1 as [i indices Hi|i indices _ IH]; simpl; unfold getitem.
  - now rewrite (lookup_ge_None_2 l i Hi).
  - destruct (l !! i); [|reflexivity]. now rewrite IH.
Qed.

Lemma getitems_inr (l : list A) (indices : list nat) (sub : list A) :
  getitems l indices = inr sub ->
  Forall (fun i => (i < length l)%nat) indices.
Proof.
  revert sub. induction indices as [|i indices IH]; intros sub; simpl; [constructor|].
  unfold getitem. destruct (l !! i) as [x|] eqn:Hx; [|discriminate].
  destruct (getitems l indices) as [e|xs]; [discriminate|]. intros _.
  constructor; [eapply lookup_lt_Some; eauto|eapply IH; eauto].
Qed.
End Getitems.

Lemma ImageType_eqb_FULL (t : ImageType) : ImageType_eqb t FULL = true <-> t = FULL.
Proof. destruct t; simpl; split; congruence. Qed.

(** [download_dataset] is the resolution of the tag followed by the
    download of the selected samples. *)
Lemma download_dataset_phases {W Img : Type} (api : Collaborators W Img)
    (dataset_id output_dir tag_name : string) (max_workers : Z) (verbose : bool)
    (s s1 : Store W) (indices : list nat) (sample_ids filenames : list string)
    (evs : list Event) :
  resolve_tag api dataset_id tag_name s = (inr (indices, sample_ids, filenames), s1, evs) ->
  download_dataset api dataset_id output_dir tag_name max_workers verbose s =
  (let '(r, s2, evs') :=
     download_all api dataset_id output_dir sample_ids filenames max_workers verbose s1 in
   (r, s2, evs ++ evs')).
Proof.
  intros Hresolve. unfold download_dataset, bind. rewrite Hresolve.
  destruct (download_all _ _ _ _ _ _ _ s1) as [[r s2] evs']. reflexivity.
Qed.

Lemma find_none_iff (tags : list TagData.t) (tag_name : string) :
  List.find (fun tag => String.eqb (TagData.name tag) tag_name) tags = None <->
  forall tag, In tag tags -> TagData.name tag <> tag_name.
Proof.
  split.
  - intros Hnone tag Hin Heq.
    pose proof (find_none _ _ Hnone tag Hin) as Hf. simpl in Hf.
    apply String.eqb_neq in Hf. contradiction.
  - intros Hall. destruct (List.find _ tags) as [tag|] eqn:Hf; [|reflexivity].
    apply find_some in Hf as [Hin Heq]. apply String.eqb_eq in Heq.
    destruct (Hall tag Hin Heq).
Qed.

(** * Tag resolution: properties *)

Section Resolution.
Context {W Img : Type}.
Variable api : Collaborators W Img.
Variable dataset_id : string.

(** The run of [resolve_tag] once the dataset has full images, the tag
    exists, the sample ids are listed and the bitmask is decoded: the two
    selections and, between them, the listing of the filenames. *)
Lemma resolve_tag_run (tag_name : string) (s : Store W)
    (dataset : DatasetData) (w1 : W) (tags : list TagData.t) (w2 : W)
    (tag : TagData.t) (all_ids : list string) (w3 : W) (indices : list nat) :
  get_dataset_by_id api dataset_id (world s) = (inr dataset, w1) ->
  img_type dataset = FULL ->
  get_all_tags api w1 = (inr tags, w2) ->
  List.find (fun tag => String.eqb (TagData.name tag) tag_name) tags = Some tag ->
  get_sample_mappings_by_dataset_id api dataset_id 25000 "_id" w2 = (inr all_ids, w3) ->
  BitMask_from_hex_to_indices api (TagData.bit_mask_data tag) = inr indices ->
  let listed :=
    [GetDatasetById dataset_id; GetAllTags;
     GetSampleMappingsByDatasetId dataset_id 25000 "_id"] in
  resolve_tag api dataset_id tag_name s =
  match getitems all_ids indices with
  | inl e => (inl e, {| world := w3; files := files s |}, listed)
  | inr sample_ids =>
      match get_filenames api w3 with
      | (inl e, w4) =>
          (inl e, {| world := w4; files := files s |}, listed ++ [GetFilenames])
      | (inr all_filenames, w4) =>
          match getitems all_filenames indices with
          | inl e =>
              (inl e, {| world := w4; files := files s |}, listed ++ [GetFilenames])
          | inr filenames =>
              (inr (indices, sample_ids, filenames),
               {| world := w4; files := files s |}, listed ++ [GetFilenames])
          end
      end
  end.
Proof.
  intros Hds Hfull Htags Hfind Hids Hdec listed.
  unfold resolve_tag, bind, call, lift, ret, raise. simpl.
  rewrite Hds, Hfull. simpl. rewrite Htags, Hfind. simpl. rewrite Hids, Hdec. simpl.
  destruct (getitems all_ids indices) as [e|sample_ids]; [reflexivity|]. simpl.
  destruct (get_filenames api w3) as [[e|all_filenames] w4]; [reflexivity|]. simpl.
  destruct (getitems all_filenames indices) as [e|filenames]; reflexivity.
Qed.
End Resolution.

Section Preconditions.
Context {W Img : Type}.
Variable api : Collaborators W Img.
Variable dataset_id : string.

(** C2. [download_dataset] checks its preconditions in order. When the
    dataset's image type is not [FULL] it raises [ValueError] and the
    request of the dataset is the only call made. When the image type is
    [FULL] and no tag of the dataset is named [tag_name] it raises
    [ValueError] after requesting the dataset and its tags only: no
    sample id or filename is listed and nothing of the download
    happens. *)
Theorem download_dataset_checks_preconditions
    (output_dir tag_name : string) (max_workers : Z) (verbose : bool) (s : Store W) :
  (forall dataset w1,
     get_dataset_by_id api dataset_id (world s) = (inr dataset, w1) ->
     img_type dataset <> FULL ->
     download_dataset api dataset_id output_dir tag_name max_workers verbose s =
     (inl (Raise ValueError
             ("Dataset with id " +:+ dataset_id +:+ " has no downloadable images!")),
      {| world := w1; files := files s |},
      [GetDatasetById dataset_id])) /\
  (forall dataset w1 tags w2,
     get_dataset_by_id api dataset_id (world s) = (inr dataset, w1) ->
     img_type dataset = FULL ->
     get_all_tags api w1 = (inr tags, w2) ->
     (forall tag, In tag tags -> TagData.name tag <> tag_name) ->
     download_dataset api dataset_id output_dir tag_name max_workers verbose s =
     (inl (Raise ValueError
             ("Dataset with id " +:+ dataset_id +:+ " has no tag " +:+ tag_name +:+ "!")),
      {| world := w2; files := files s |},
      [GetDatasetById dataset_id; GetAllTags]) /\
     Forall (fun ev => is_listing_or_download ev = false)
       (events (download_dataset api dataset_id output_dir tag_name max_workers verbose s))).
Proof.
  split.
  - intros dataset w1 Hds Hfull.
    unfold download_dataset, resolve_tag, bind, call, raise. simpl. rewrite Hds.
    destruct (ImageType_eqb (img_type dataset) FULL) eqn:Heq; [|reflexivity].
    apply ImageType_eqb_FULL in Heq. contradiction.
  - intros dataset w1 tags w2 Hds Hfull Htags Hnone.
    apply find_none_iff in Hnone.
    assert (Hrun :
      download_dataset api dataset_id output_dir tag_name max_workers verbose s =
      (inl (Raise ValueError
              ("Dataset with id " +:+ dataset_id +:+ " has no tag " +:+ tag_name +:+ "!")),
       {| world := w2; files := files s |},
       [GetDatasetById dataset_id; GetAllTags])).
    { unfold download_dataset, resolve_tag, bind, call, raise. simpl.
      rewrite Hds, Hfull. simpl. rewrite Htags, Hnone. reflexivity. }
    split; [exact Hrun|]. rewrite Hrun. simpl. repeat constructor.
Qed.

(** C3. Once the dataset has full images, the tag exists, both lists are
    fetched and every decoded index is a position of both, tag resolution
    returns the decoded indices and, from each list, exactly the elements
    at those indices in the order of the indices: the k-th selected
    sample id (filename) is the one at the k-th index; the two selections
    and the index list have the same length. These selections are what
    [download_dataset] then downloads. *)
Theorem tag_resolution_selects_indices
    (tag_name : string) (s : Store W)
    (dataset : DatasetData) (w1 : W) (tags : list TagData.t) (w2 : W)
    (tag : TagData.t) (all_ids : list string) (w3 : W) (indices : list nat)
    (all_filenames : list string) (w4 : W) :
  get_dataset_by_id api dataset_id (world s) = (inr dataset, w1) ->
  img_type dataset = FULL ->
  get_all_tags api w1 = (inr tags, w2) ->
  List.find (fun tag => String.eqb (TagData.name tag) tag_name) tags = Some tag ->
  get_sample_mappings_by_dataset_id api dataset_id 25000 "_id" w2 = (inr all_ids, w3) ->
  BitMask_from_hex_to_indices api (TagData.bit_mask_data tag) = inr indices ->
  get_filenames api w3 = (inr all_filenames, w4) ->
  Forall (fun i => (i < length all_ids)%nat) indices ->
  Forall (fun i => (i < length all_filenames)%nat) indices ->
  let s4 := {| world := w4; files := files s |} in
  let listed :=
    [GetDatasetById dataset_id; GetAllTags;
     GetSampleMappingsByDatasetId dataset_id 25000 "_id"; GetFilenames] in
  exists sample_ids filenames,
    resolve_tag api dataset_id tag_name s =
      (inr (indices, sample_ids, filenames), s4, listed) /\
    map Some sample_ids = map (fun i => all_ids !! i) indices /\
    map Some filenames = map (fun i => all_filenames !! i) indices /\
    length sample_ids = length indices /\
    length filenames = length indices /\
    forall output_dir max_workers verbose,
      download_dataset api dataset_id output_dir tag_name max_workers verbose s =
      (let '(r, s5, evs) :=
         download_all api dataset_id output_dir sample_ids filenames max_workers verbose
           s4 in
       (r, s5, listed ++ evs)).
Proof.
  intros Hds Hfull Htags Hfind Hids Hdec Hfns Hin_ids Hin_fns s4 listed.
  destruct (getitems_in_range all_ids indices Hin_ids) as (sample_ids & Hsel & Hmap & Hlen).
  destruct (getitems_in_range all_filenames indices Hin_fns)
    as (filenames & Hsel' & Hmap' & Hlen').
  exists sample_ids, filenames.
  assert (Hrun : resolve_tag api dataset_id tag_name s =
                 (inr (indices, sample_ids, filenames), s4, listed)).
  { rewrite (resolve_tag_run api dataset_id tag_name s _ _ _ _ _ _ _ _
               Hds Hfull Htags Hfind Hids Hdec).
    now rewrite Hsel, Hfns, Hsel'. }
  split; [exact Hrun|]. repeat (split; [assumption|]).
  intros output_dir max_workers verbose.
  exact (download_dataset_phases api dataset_id output_dir tag_name max_workers verbose
           s s4 indices sample_ids filenames listed Hrun).
Qed.

(** C9. Once the dataset has full images, the tag exists, the sample ids
    are listed and the bitmask is decoded: if some decoded index is not a
    position of the list of sample ids, [download_dataset] raises
    [IndexError] right after that listing; if every index is one but,
    the filenames being listed, some index is not a position of that
    list, it raises [IndexError] right after the second listing. In both
    cases nothing of the download has happened. *)
Theorem download_dataset_index_out_of_range
    (output_dir tag_name : string) (max_workers : Z) (verbose : bool) (s : Store W)
    (dataset : DatasetData) (w1 : W) (tags : list TagData.t) (w2 : W)
    (tag : TagData.t) (all_ids : list string) (w3 : W) (indices : list nat) :
  get_dataset_by_id api dataset_id (world s) = (inr dataset, w1) ->
  img_type dataset = FULL ->
  get_all_tags api w1 = (inr tags, w2) ->
  List.find (fun tag => String.eqb (TagData.name tag) tag_name) tags = Some tag ->
  get_sample_mappings_by_dataset_id api dataset_id 25000 "_id" w2 = (inr all_ids, w3) ->
  BitMask_from_hex_to_indices api (TagData.bit_mask_data tag) = inr indices ->
  let run := download_dataset api dataset_id output_dir tag_name max_workers verbose s in
  (Exists (fun i => (length all_ids <= i)%nat) indices ->
   run = (inl (Raise IndexError "list index out of range"),
          {| world := w3; files := files s |},
          [GetDatasetById dataset_id; GetAllTags;
           GetSampleMappingsByDatasetId dataset_id 25000 "_id"])) /\
  (forall all_filenames w4,
     Forall (fun i => (i < length all_ids)%nat) indices ->
     get_filenames api w3 = (inr all_filenames, w4) ->
     Exists (fun i => (length all_filenames <= i)%nat) indices ->
     run = (inl (Raise IndexError "list index out of range"),
            {| world := w4; files := files s |},
            [GetDatasetById dataset_id; GetAllTags;
             GetSampleMappingsByDatasetId dataset_id 25000 "_id"; GetFilenames])) /\
  ((Exists (fun i => (length all_ids <= i)%nat) indices \/
    exists all_filenames w4,
      get_filenames api w3 = (inr all_filenames, w4) /\
      Exists (fun i => (length all_filenames <= i)%nat) indices) ->
   exc_class <$> (match result run with inl e => Some e | inr _ => None end)
     = Some IndexError /\
   Forall (fun ev => is_download ev = false) (events run)).
Proof.
  intros Hds Hfull Htags Hfind Hids Hdec run.
  pose proof (resolve_tag_run api dataset_id tag_name s _ _ _ _ _ _ _ _
                Hds Hfull Htags Hfind Hids Hdec) as Hrun.
  assert (Hids_oob :
    Exists (fun i => (length all_ids <= i)%nat) indices ->
    run = (inl (Raise IndexError "list index out of range"),
           {| world := w3; files := files s |},
           [GetDatasetById dataset_id; GetAllTags;
            GetSampleMappingsByDatasetId dataset_id 25000 "_id"])).
  { intros Hoob. subst run. unfold download_dataset, bind. rewrite Hrun.
    now rewrite (getitems_out_of_range all_ids indices Hoob). }
  assert (Hfns_oob : forall all_filenames w4,
    Forall (fun i => (i < length all_ids)%nat) indices ->
    get_filenames api w3 = (inr all_filenames, w4) ->
    Exists (fun i => (length all_filenames <= i)%nat) indices ->
    run = (inl (Raise IndexError "list index out of range"),
           {| world := w4; files := files s |},
           [GetDatasetById dataset_id; GetAllTags;
            GetSampleMappingsByDatasetId dataset_id 25000 "_id"; GetFilenames])).
  { intros all_filenames w4 Hin Hfns Hoob. subst run. unfold download_dataset, bind.
    rewrite Hrun.
    destruct (getitems_in_range all_ids indices Hin) as (sample_ids & -> & _).
    rewrite Hfns. now rewrite (getitems_out_of_range all_filenames indices Hoob). }
  split; [exact Hids_oob|]. split; [exact Hfns_oob|].
  intros [Hoob|(all_filenames & w4 & Hfns & Hoob)].
  - rewrite (Hids_oob Hoob). simpl. split; [reflexivity|repeat constructor].
  - destruct (decide (Forall (fun i => (i < length all_ids)%nat) indices)) as [Hin|Hex].
    + rewrite (Hfns_oob _ _ Hin Hfns Hoob). simpl. split; [reflexivity|repeat constructor].
    + rewrite Hids_oob; [simpl; split; [reflexivity|repeat constructor]|].
      apply not_Forall_Exists in Hex; [|intros i; apply _].
      eapply List.Exists_impl; [|exact Hex]. simpl. intros; lia.
Qed.
End Preconditions.

(** * The download of the items: properties *)

Lemma index_of_false_spec (results : list bool) (k : nat) :
  index_of false results = Some k <->
  results !! k = Some false /\ forall j, (j < k)%nat -> results !! j = Some true.
Proof.
  revert k. induction results as [|b results IH]; intros k; simpl.
  - split; [discriminate|intros [? _]; discriminate].
  - destruct b; simpl.
    + destruct (index_of false results) as [k'|] eqn:Hidx; simpl.
      * split.
        -- intros [= <-]. destruct (proj1 (IH k') eq_refl) as [Hk Hlt].
           split; [exact Hk|]. intros [|j] Hj; [reflexivity|]. apply Hlt. lia.
        -- intros [Hk Hlt]. destruct k as [|k]; [discriminate|]. f_equal.
           assert (Some k' = Some k) as [= ->]; [|reflexivity].
           apply IH. split; [exact Hk|]. intros j Hj. apply (Hlt (S j)). lia.
      * split; [discriminate|]. intros [Hk Hlt]. destruct k as [|k]; [discriminate|].
        assert (None = Some k) as Hc; [|discriminate].
        apply IH. split; [exact Hk|]. intros j Hj. apply (Hlt (S j)). lia.
    + split.
      * intros [= <-]. split; [reflexivity|]. intros j Hj. lia.
      * intros [Hk Hlt]. destruct k as [|k]; [reflexivity|].
        specialize (Hlt 0%nat ltac:(lia)). discriminate.
Qed.

Lemma index_of_false_None (results : list bool) :
  index_of false results = None <-> all results = true.
Proof.
  unfold all. induction results as [|b results IH]; simpl; [tauto|].
  destruct b; simpl; [|split; discriminate].
  rewrite <- IH. destruct (index_of false results); simpl; split; congruence.
Qed.

Section Download.
Context {W Img : Type}.
Variable api : Collaborators W Img.
Variable dataset_id : string.

(** Case analysis on the outcome of each collaborator called in a run,
    in the order of the calls. *)
Ltac step_outcomes :=
  repeat (simpl;
          match goal with
          | |- context [match ?op with (_, _) => _ end] => destruct op as [[?|?] ?]
          | |- context [match ?r with inl _ => _ | inr _ => _ end] => destruct r
          | |- context [if ?b then _ else _] => destruct b
          end);
  simpl.

(** The events of the [try] body: the request of the read URL, then
    steps of the download. It returns [True] whenever it returns. *)
Lemma download_image_events (output_dir sample_id filename : string) (s : Store W) :
  exists steps,
    events (download_image api dataset_id output_dir sample_id filename s) =
      GetSampleImageReadUrlById dataset_id sample_id "full" :: steps /\
    Forall (fun ev => is_item_step ev = true) steps.
Proof.
  unfold download_image, _get_image_from_read_url, _make_dir_and_save_image,
    bind, call, ask, lift, ret, emit, write_file, events.
  step_outcomes; eexists; (split; [reflexivity|repeat constructor]).
Qed.

Lemma download_image_true (output_dir sample_id filename : string) (s : Store W) (b : bool) :
  result (download_image api dataset_id output_dir sample_id filename s) = inr b ->
  b = true.
Proof.
  unfold download_image, _get_image_from_read_url, _make_dir_and_save_image,
    bind, call, ask, lift, ret, emit, write_file, result.
  step_outcomes; congruence.
Qed.

(** [lambda_] never raises: it returns what the [try] body returns, or
    warns and returns [False] when the body raises. *)
Lemma lambda__run (output_dir : string) (verbose : bool) (sample_id filename : string)
    (s : Store W) :
  lambda_ api dataset_id output_dir verbose (sample_id, filename) s =
  match download_image api dataset_id output_dir sample_id filename s with
  | (inr b, s1, evs) => (inr b, s1, evs ++ tqdm_events verbose)
  | (inl e, s1, evs) =>
      (inr false, s1, evs ++ [Warn (item_warning filename e)] ++ tqdm_events verbose)
  end.
Proof.
  unfold lambda_, try_except, bind, warnings_warn, emit, ret, tqdm_events, item_warning.
  destruct (download_image _ _ _ _ _ _) as [[[e|b] s1] evs]; destruct verbose; simpl;
    rewrite <- ?app_assoc, ?app_nil_r; reflexivity.
Qed.
Lemma filter_item_steps (p : Event -> bool) (steps : list Event) :
  (forall ev, is_item_step ev = true -> p ev = false) ->
  Forall (fun ev => is_item_step ev = true) steps ->
  List.filter p steps = [].
Proof.
  intros Hp. induction 1 as [|ev steps Hev _ IH]; simpl; [reflexivity|].
  now rewrite (Hp ev Hev).
Qed.

(** One item: [lambda_] returns, requests the read URL once, creates no
    pool, emits no aggregate warning, and no warning at all when it
    returns [True]. *)
Lemma lambda__total (output_dir : string) (verbose : bool) (i : string * string)
    (s : Store W) :
  exists b s1 evs,
    lambda_ api dataset_id output_dir verbose i s = (inr b, s1, evs) /\
    List.filter is_read_url_request evs = [read_url_request dataset_id i] /\
    List.filter is_aggregate_warning evs = [] /\
    List.filter is_thread_pool evs = [] /\
    (b = true -> List.filter is_warning evs = []).
Proof.
  destruct i as [sample_id filename]. rewrite lambda__run.
  destruct (download_image_events output_dir sample_id filename s) as (steps & Hevs & Hsteps).
  pose proof (download_image_true output_dir sample_id filename s) as Htrue.
  destruct (download_image _ _ _ _ _ _) as [[[e|b] s1] evs]; simpl in Hevs, Htrue; subst evs.
  - exists false, s1. eexists. split; [reflexivity|].
    rewrite !List.filter_app. simpl.
    rewrite !(filter_item_steps _ steps) by (auto; intros [] ?; simpl in *; congruence).
    destruct verbose; simpl; repeat split; congruence.
  - exists b, s1. eexists. split; [reflexivity|].
    rewrite !List.filter_app. simpl.
    rewrite !(filter_item_steps _ steps) by (auto; intros [] ?; simpl in *; congruence).
    destruct verbose; simpl; repeat split; congruence.
Qed.

(** The futures read in the order of submission: when every position
    below [n] has a result, the list has one result per position. *)
Lemma omap_lookup_seq {B : Type} (f : nat -> option B) (n a : nat) :
  (forall k, (a <= k < a + n)%nat -> is_Some (f k)) ->
  length (omap f (seq a n)) = n /\
  forall i, (i < n)%nat -> omap f (seq a n) !! i = f (a + i)%nat.
Proof.
  unfold omap. revert a. induction n as [|n IH]; intros a Hsome; simpl.
  - split; [reflexivity|]. intros i Hi. lia.
  - destruct (Hsome a ltac:(lia)) as [b Hb]. rewrite Hb.
    destruct (IH (S a)) as [Hlen Hlookup]; [intros k Hk; apply Hsome; lia|].
    simpl. split; [now rewrite Hlen|].
    intros [|i] Hi; simpl.
    + now rewrite Nat.add_0_r.
    + rewrite Hlookup by lia. f_equal. lia.
Qed.

(** Whatever its choices, the pool runs the pending tasks one after the
    other in some order, each once. *)
Lemma run_pool_order {A B : Type} (choose : nat -> nat) (fn : A -> M (Store W) Event B)
    (n : nat) (pending : list (nat * A)) :
  length pending = n ->
  exists order,
    order ≡ₚ pending /\
    forall s, run_pool choose fn n pending s = run_tasks fn order s.
Proof.
  revert pending. induction n as [|n IH]; intros pending Hlen.
  - destruct pending; [|discriminate]. exists []. split; reflexivity.
  - assert (Hj : (choose (S n) mod length pending < length pending)%nat)
      by (apply Nat.mod_upper_bound; lia).
    destruct (lookup_lt_is_Some_2 _ _ Hj) as [[k a] Hlookup].
    destruct (IH (delete (choose (S n) mod length pending)%nat pending))
      as (order & Hperm & Hrun).
    { rewrite length_delete by eauto. lia. }
    exists ((k, a) :: order). split.
    + rewrite Hperm. symmetry. now apply delete_Permutation.
    + intros s. simpl. rewrite Hlookup. unfold bind.
      destruct (fn a s) as [[[e|b] s1] evs]; [reflexivity|]. now rewrite Hrun.
Qed.

Lemma run_tasks_cons {A B : Type} (fn : A -> M (Store W) Event B) (k : nat) (a : A)
    (rest : list (nat * A)) (s : Store W) :
  run_tasks fn ((k, a) :: rest) s =
  match fn a s with
  | (inl e, s1, evs) => (inl e, s1, evs)
  | (inr b, s1, evs) =>
      match run_tasks fn rest s1 with
      | (inl e, s2, evs') => (inl e, s2, evs ++ evs')
      | (inr done, s2, evs') => (inr ((k, b) :: done), s2, evs ++ evs')
      end
  end.
Proof.
  simpl. unfold bind, ret.
  destruct (fn a s) as [[[e|b] s1] evs]; [reflexivity|].
  destruct (run_tasks fn rest s1) as [[[e|done] s2] evs']; [reflexivity|].
  now rewrite app_nil_r.
Qed.

Lemma run_tasks_app {A B : Type} (fn : A -> M (Store W) Event B)
    (before after : list (nat * A)) (s s1 s2 : Store W)
    (r_before r_after : list (nat * B)) (evs_before evs_after : list Event) :
  run_tasks fn before s = (inr r_before, s1, evs_before) ->
  run_tasks fn after s1 = (inr r_after, s2, evs_after) ->
  run_tasks fn (before ++ after) s =
    (inr (r_before ++ r_after), s2, evs_before ++ evs_after).
Proof.
  revert s r_before evs_before.
  induction before as [|[k a] before IH]; intros s r_before evs_before Hbefore Hafter.
  - injection Hbefore as <- <- <-. exact Hafter.
  - rewrite run_tasks_cons in Hbefore. simpl app. rewrite run_tasks_cons.
    destruct (fn a s) as [[[e|b] sa] evs]; [discriminate|].
    destruct (run_tasks fn before sa) as [[[e|done] sb] evs'] eqn:Hrest; [discriminate|].
    injection Hbefore as <- <- <-.
    rewrite (IH _ _ _ Hrest Hafter). now rewrite app_assoc.
Qed.

(** The futures of the tasks that were run hold their positions. *)
Lemma run_tasks_positions {A B : Type} (fn : A -> M (Store W) Event B)
    (order : list (nat * A)) (s s1 : Store W) (done : list (nat * B)) (evs : list Event) :
  run_tasks fn order s = (inr done, s1, evs) -> done.*1 = order.*1.
Proof.
  revert s s1 done evs. induction order as [|[k a] order IH]; intros s s1 done evs.
  - intros [= <- _ _]. reflexivity.
  - rewrite run_tasks_cons.
    destruct (fn a s) as [[[e|b] sa] evs0]; [discriminate|].
    destruct (run_tasks fn order sa) as [[[e|done'] sb] evs'] eqn:Hrest; [discriminate|].
    intros [= <- _ _]. simpl. f_equal. eapply IH. exact Hrest.
Qed.

(** The items run one after the other: none raises, the read URL of each
    is requested once, no pool is created and no aggregate warning is
    emitted, nor any warning when every result is [True]. *)
Lemma run_tasks_lambda__total (output_dir : string) (verbose : bool)
    (order : list (nat * (string * string))) (s : Store W) :
  exists done s1 evs,
    run_tasks (lambda_ api dataset_id output_dir verbose) order s = (inr done, s1, evs) /\
    List.filter is_read_url_request evs = map (read_url_request dataset_id) order.*2 /\
    List.filter is_aggregate_warning evs = [] /\
    List.filter is_thread_pool evs = [] /\
    ((forall k b, (k, b) ∈ done -> b = true) -> List.filter is_warning evs = []).
Proof.
  revert s. induction order as [|[k i] order IH]; intros s.
  - exists [], s, []. simpl. unfold ret. repeat split; auto.
  - rewrite run_tasks_cons.
    destruct (lambda__total output_dir verbose i s)
      as (b & s1 & evs & -> & Hurl & Hagg & Hpool & Hwarn).
    destruct (IH s1) as (done & s2 & evs' & -> & Hurl' & Hagg' & Hpool' & Hwarn').
    exists ((k, b) :: done), s2, (evs ++ evs'). split; [reflexivity|].
    rewrite !List.filter_app, Hurl, Hurl', Hagg, Hagg', Hpool, Hpool'.
    repeat split; try reflexivity.
    intros Htrue. rewrite Hwarn, Hwarn'; [reflexivity| |].
    + intros k' b' Hin. apply (Htrue k'). now right.
    + apply (Htrue k). now left.
Qed.

(** [executor.map]: the pool runs the submitted tasks in some order, and
    the result of each is returned at the position of the task. *)
Lemma executor_map_order {A B : Type} (choose : nat -> nat)
    (fn : A -> M (Store W) Event B) (iterable : list A) :
  exists order,
    order ≡ₚ zip (seq 0 (length iterable)) iterable /\
    forall s s1 done evs,
      run_tasks fn order s = (inr done, s1, evs) ->
      exists results,
        executor_map choose fn iterable s = (inr results, s1, evs) /\
        length results = length iterable /\
        forall k b, (k, b) ∈ done <-> results !! k = Some b.
Proof.
  set (n := length iterable).
  destruct (run_pool_order choose fn n (zip (seq 0 n) iterable)) as (order & Hperm & Hrun).
  { rewrite length_zip, length_seq. subst n. lia. }
  exists order. split; [exact Hperm|]. intros s s1 done evs Hdone.
  assert (Hkeys : done.*1 ≡ₚ seq 0 n).
  { rewrite (run_tasks_positions fn order s s1 done evs Hdone), Hperm.
    rewrite fst_zip by (rewrite length_seq; subst n; lia). reflexivity. }
  assert (Hnodup : NoDup done.*1) by (rewrite Hkeys; apply NoDup_seq).
  set (futures := list_to_map done : gmap nat B).
  assert (Hfuture : forall k b, (k, b) ∈ done <-> futures !! k = Some b)
    by (intros k b; apply elem_of_list_to_map; exact Hnodup).
  assert (Hsome : forall k, (0 <= k < 0 + n)%nat -> is_Some (futures !! k)).
  { intros k Hk.
    assert (Hin : k ∈ done.*1) by (rewrite Hkeys; apply elem_of_seq; lia).
    apply list_elem_of_fmap in Hin as ([k' b] & -> & Hin). exists b. now apply Hfuture. }
  destruct (omap_lookup_seq (fun k => futures !! k) n 0 Hsome) as [Hlen Hlookup].
  simpl in Hlookup.
  exists (omap (fun k => futures !! k) (seq 0 n)).
  split; [|split; [exact Hlen|]].
  - unfold executor_map, bind, ret. fold n. rewrite Hrun, Hdone, app_nil_r. reflexivity.
  - intros k b. rewrite Hfuture. split.
    + intros Hk. rewrite Hlookup; [exact Hk|].
      assert (Hin : k ∈ done.*1)
        by (apply list_elem_of_fmap; exists (k, b); split; [reflexivity|now apply Hfuture]).
      rewrite Hkeys in Hin. apply elem_of_seq in Hin. lia.
    + intros Hk. rewrite <- Hlookup; [exact Hk|].
      rewrite <- Hlen. eapply lookup_lt_Some. exact Hk.
Qed.

(** [executor.map] on the downloadables: the pool runs the items in some
    order, each once, none of them raises, and the result of each item is
    returned at the position of the item. *)
Lemma executor_map_lambda__total (output_dir : string) (verbose : bool)
    (choose : nat -> nat) (downloadables : list (string * string)) (s : Store W) :
  let fn := lambda_ api dataset_id output_dir verbose in
  exists order done results s1 evs,
    order ≡ₚ zip (seq 0 (length downloadables)) downloadables /\
    run_tasks fn order s = (inr done, s1, evs) /\
    (forall k b, (k, b) ∈ done <-> results !! k = Some b) /\
    executor_map choose fn downloadables s = (inr results, s1, evs) /\
    length results = length downloadables /\
    List.filter is_read_url_request evs ≡ₚ
      map (read_url_request dataset_id) downloadables /\
    List.filter is_aggregate_warning evs = [] /\
    List.filter is_thread_pool evs = [] /\
    (all results = true -> List.filter is_warning evs = []).
Proof.
  intros fn.
  destruct (executor_map_order choose fn downloadables) as (order & Hperm & Hmap).
  destruct (run_tasks_lambda__total output_dir verbose order s)
    as (done & s1 & evs & Hrun & Hreq & Hagg & Hpool & Hwarn).
  destruct (Hmap s s1 done evs Hrun) as (results & Hexec & Hlen & Hres).
  exists order, done, results, s1, evs.
  split; [exact Hperm|]. split; [exact Hrun|]. split; [exact Hres|].
  split; [exact Hexec|]. split; [exact Hlen|]. split; [|split; [exact Hagg|split;
    [exact Hpool|]]].
  - rewrite Hreq.
    rewrite (Permutation_map (read_url_request dataset_id)
               (fmap_Permutation snd _ _ Hperm)).
    rewrite snd_zip by (rewrite length_seq; lia). reflexivity.
  - intros Hall. apply Hwarn. intros k b Hin. apply Hres in Hin.
    unfold all in Hall. rewrite forallb_forall in Hall.
    apply (Hall b). apply list_elem_of_In. eapply list_elem_of_lookup_2. exact Hin.
Qed.

Lemma clamp_max_workers_spec (sample_ids : list string) (max_workers : Z) :
  clamp_max_workers sample_ids max_workers =
    Z.max 1 (Z.min max_workers (Z.of_nat (length sample_ids))) /\
  1 <= clamp_max_workers sample_ids max_workers.
Proof. unfold clamp_max_workers. lia. Qed.

(** The run of the download phase, from the run of its pool. *)
Lemma download_all_run (output_dir : string) (sample_ids filenames : list string)
    (max_workers : Z) (verbose : bool) (s s1 : Store W) (results : list bool)
    (evs : list Event) :
  executor_map (pool_choice api) (lambda_ api dataset_id output_dir verbose)
    (zip sample_ids filenames) s = (inr results, s1, evs) ->
  download_all api dataset_id output_dir sample_ids filenames max_workers verbose s =
  (inr tt, s1,
   header_events api sample_ids max_workers verbose ++
   [ThreadPoolExecutor (clamp_max_workers sample_ids max_workers)] ++
   evs ++ aggregate_events results).
Proof.
  intros Hpool.
  destruct (clamp_max_workers_spec sample_ids max_workers) as [_ Hge].
  assert (Hpos : (clamp_max_workers sample_ids max_workers <=? 0) = false)
    by (apply Z.leb_gt; lia).
  unfold download_all, ThreadPoolExecutor_init, header_events, aggregate_events.
  rewrite Hpos.
  unfold bind, emit, ret, lift, list_index, warnings_warn, aggregate_warning.
  destruct verbose; simpl; rewrite Hpool; simpl.
  all: destruct (all results) eqn:Hall; simpl.
  all: try (apply index_of_false_None in Hall; rewrite Hall;
            rewrite ?app_nil_r; reflexivity).
  all: destruct (index_of false results) as [k|] eqn:Hidx;
    [ simpl; rewrite ?app_nil_r, <- ?app_assoc; reflexivity
    | apply index_of_false_None in Hidx; congruence ].
Qed.
(** When a step of an item raises, the [try] body raises that
    exception. *)
Lemma step_raises_download_image (output_dir sample_id filename : string) (s : Store W)
    (e : Exception) :
  step_raises api dataset_id output_dir sample_id filename s e ->
  exists s_e evs_e,
    download_image api dataset_id output_dir sample_id filename s = (inl e, s_e, evs_e).
Proof.
  unfold step_raises, download_image, _get_image_from_read_url, _make_dir_and_save_image,
    bind, call, ask, lift, ret, emit, write_file. simpl.
  intros [(w1 & ->)|(read_url & w1 & -> & Hrest)]; simpl; [eauto|].
  destruct Hrest as [(w2 & ->)|(blob & w2 & -> & Hrest)]; simpl; [eauto|].
  destruct Hrest as [->|(img & -> & Hrest)]; simpl; [eauto|].
  destruct Hrest as [(Hex & w3 & Hmk)|(w3 & Hdir & w4 & Hsave)].
  - rewrite Hex. simpl. rewrite Hmk. simpl. eauto.
  - destruct Hdir as [(Hex & ->)|(Hex & Hmk)]; rewrite Hex; simpl.
    + rewrite Hsave. simpl. eauto.
    + rewrite Hmk. simpl. rewrite Hsave. simpl. eauto.
Qed.

(** C1. The download phase never raises. Whatever the collaborators do,
    every item returns a result (an exception of its steps is caught);
    the pool runs the items in some order, each once, and returns the
    list of their results by position in the order of submission,
    whatever the order in which it ran them; the phase returns normally.
    When some result is [False], exactly one aggregate warning is
    emitted, after the pool, and its text holds the 0-based position of
    the first [False] in the list of results;
    when every result is [True], no aggregate warning is emitted (and no
    warning at all). So [download_dataset] returns normally once the tag
    is resolved. *)
Theorem download_phase_never_raises
    (output_dir : string) (sample_ids filenames : list string)
    (max_workers : Z) (verbose : bool) (s : Store W) :
  (forall i s0, exists b,
     result (lambda_ api dataset_id output_dir verbose i s0) = inr b) /\
  exists order done results s1 evs,
    let fn := lambda_ api dataset_id output_dir verbose in
    let downloadables := zip sample_ids filenames in
    let run :=
      download_all api dataset_id output_dir sample_ids filenames max_workers verbose s in
    order ≡ₚ zip (seq 0 (length downloadables)) downloadables /\
    run_tasks fn order s = (inr done, s1, evs) /\
    (forall k b, (k, b) ∈ done <-> results !! k = Some b) /\
    executor_map (pool_choice api) fn downloadables s = (inr results, s1, evs) /\
    length results = length downloadables /\
    result run = inr tt /\
    (forall k,
       results !! k = Some false ->
       (forall j, (j < k)%nat -> results !! j = Some true) ->
       List.filter is_aggregate_warning (events run) =
         [Warn ("Warning: Unsuccessful download! Failed at image: " +:+ pretty k)] /\
       last (events run) =
         Some (Warn ("Warning: Unsuccessful download! Failed at image: " +:+ pretty k))) /\
    ((forall b, In b results -> b = true) ->
     List.filter is_aggregate_warning (events run) = [] /\
     List.filter is_warning (events run) = []) /\
    (forall tag_name s0 indices evs0,
       resolve_tag api dataset_id tag_name s0
         = (inr (indices, sample_ids, filenames), s, evs0) ->
       result (download_dataset api dataset_id output_dir tag_name max_workers verbose s0)
         = inr tt).
Proof.
  split.
  - intros i s0. destruct (lambda__total output_dir verbose i s0) as (b & s1 & evs & -> & _).
    now exists b.
  - destruct (executor_map_lambda__total output_dir verbose (pool_choice api)
                (zip sample_ids filenames) s)
      as (order & done & results & s1 & evs & Hperm & Hrun & Hres & Hpool & Hlen & _ &
          Hagg & _ & Hwarn).
    exists order, done, results, s1, evs. cbv zeta.
    rewrite (download_all_run output_dir sample_ids filenames max_workers verbose
               s s1 results evs Hpool).
    unfold result, events. simpl.
    assert (Hheader : forall p, (forall m, p (Print m) = false) ->
              (forall n, p (Tqdm n) = false) ->
              List.filter p (header_events api sample_ids max_workers verbose) = []).
    { intros p Hprint Htqdm. unfold header_events.
      destruct verbose; simpl; [|reflexivity]. now rewrite Hprint, Htqdm. }
    split; [exact Hperm|]. split; [exact Hrun|]. split; [exact Hres|].
    split; [exact Hpool|]. split; [exact Hlen|]. split; [reflexivity|].
    split; [|split].
    + intros k Hk Hlt.
      assert (Hidx : aggregate_events results = [Warn (aggregate_warning k)]).
      { unfold aggregate_events.
        now rewrite (proj2 (index_of_false_spec results k) (conj Hk Hlt)). }
      rewrite Hidx. split.
      * rewrite List.filter_app, Hheader by reflexivity. simpl.
        now rewrite List.filter_app, Hagg.
      * change (?h ++ ?p :: ?e ++ [?w]) with (h ++ (p :: e) ++ [w]).
        rewrite !app_assoc. apply last_snoc.
    + intros Htrue.
      assert (Hall : all results = true) by (apply forallb_forall; auto).
      assert (Hidx : aggregate_events results = []).
      { unfold aggregate_events. apply index_of_false_None in Hall. now rewrite Hall. }
      rewrite Hidx.
      rewrite !app_nil_r, !List.filter_app, !Hheader by reflexivity. simpl.
      rewrite Hagg, (Hwarn Hall). split; reflexivity.
    + intros tag_name s0 indices evs0 Hresolve.
      rewrite (download_dataset_phases api dataset_id output_dir tag_name max_workers
                 verbose s0 s indices sample_ids filenames evs0 Hresolve).
      now rewrite (download_all_run output_dir sample_ids filenames max_workers verbose
                     s s1 results evs Hpool).
Qed.

(** C4 (as amended). For every requested [max_workers] and every number
    of selected items, [download_dataset] creates its pool with
    max(1, min(max_workers, number of items)) workers: never zero, and
    never more workers than items when there is at least one item. With
    3 items and [max_workers = 8] it uses 3 workers; with 0 items it uses
    1 worker, and the batch completes at once with no warning. *)
Theorem effective_worker_count
    (output_dir : string) (sample_ids filenames : list string)
    (max_workers : Z) (verbose : bool) (s : Store W) :
  let n := Z.of_nat (length sample_ids) in
  let workers := clamp_max_workers sample_ids max_workers in
  workers = Z.max 1 (Z.min max_workers n) /\
  workers <> 0 /\
  (1 <= n -> workers <= n) /\
  List.filter is_thread_pool
    (events (download_all api dataset_id output_dir sample_ids filenames
               max_workers verbose s))
    = [ThreadPoolExecutor workers] /\
  clamp_max_workers ["a"; "b"; "c"] 8 = 3 /\
  clamp_max_workers [] max_workers = 1 /\
  download_all api dataset_id output_dir [] [] max_workers verbose s =
    (inr tt, s, header_events api [] max_workers verbose ++ [ThreadPoolExecutor 1]) /\
  List.filter is_warning
    (events (download_all api dataset_id output_dir [] [] max_workers verbose s)) = [].
Proof.
  intros n workers.
  destruct (clamp_max_workers_spec sample_ids max_workers) as [Hspec Hge].
  fold n workers in Hspec, Hge.
  assert (Hempty :
    download_all api dataset_id output_dir [] [] max_workers verbose s =
    (inr tt, s, header_events api [] max_workers verbose ++ [ThreadPoolExecutor 1])).
  { rewrite (download_all_run output_dir [] [] max_workers verbose s s [] []);
      [|reflexivity].
    assert (clamp_max_workers [] max_workers = 1) as -> by (unfold clamp_max_workers; simpl; lia).
    reflexivity. }
  repeat split.
  - exact Hspec.
  - lia.
  - intros Hn. subst workers n. unfold clamp_max_workers in *. lia.
  - destruct (executor_map_lambda__total output_dir verbose (pool_choice api)
                (zip sample_ids filenames) s)
      as (order & done & results & s1 & evs & _ & _ & _ & Hpool & _ & _ & Hagg &
          Hnopool & _).
    rewrite (download_all_run output_dir sample_ids filenames max_workers verbose
               s s1 results evs Hpool).
    unfold events. simpl. unfold header_events, aggregate_events.
    destruct verbose; simpl; rewrite List.filter_app, Hnopool;
      destruct (index_of false results); reflexivity.
  - unfold clamp_max_workers; simpl; lia.
  - exact Hempty.
  - rewrite Hempty. unfold events, header_events. simpl.
    destruct verbose; reflexivity.
Qed.

(** C5. The pool runs the items of the batch one after the other in some
    order, each once. For every item of the batch, with the items that
    the pool runs before it and those it runs after it: if a step of the
    item (the request of the signed URL, the HTTP fetch, the decoding of
    the image, the creation of the directory or the write of the file)
    raises an exception [e], then the item emits the warning
    "Downloading of image <filename> failed with error <e>" and requests
    its read URL once (there is no retry), its result is [False] at its
    position in the list of results, the items after it are all run, and
    the download phase returns normally. *)
Theorem failed_item_is_warned_and_skipped
    (output_dir : string) (sample_ids filenames : list string) (max_workers : Z)
    (verbose : bool) (k : nat) (sample_id filename : string) (s : Store W) :
  zip sample_ids filenames !! k = Some (sample_id, filename) ->
  let fn := lambda_ api dataset_id output_dir verbose in
  let downloadables := zip sample_ids filenames in
  exists before after r_before s_k evs_before,
    before ++ (k, (sample_id, filename)) :: after
      ≡ₚ zip (seq 0 (length downloadables)) downloadables /\
    run_tasks fn before s = (inr r_before, s_k, evs_before) /\
    forall e,
      step_raises api dataset_id output_dir sample_id filename s_k e ->
      exists s_e evs_e r_after s1 evs_after results,
        let warned :=
          evs_e ++
          [Warn ("Downloading of image " +:+ filename +:+
                 " failed with error " +:+ exc_str e)] ++
          tqdm_events verbose in
        fn (sample_id, filename) s_k = (inr false, s_e, warned) /\
        List.filter is_read_url_request warned =
          [GetSampleImageReadUrlById dataset_id sample_id "full"] /\
        run_tasks fn after s_e = (inr r_after, s1, evs_after) /\
        executor_map (pool_choice api) fn downloadables s =
          (inr results, s1, evs_before ++ warned ++ evs_after) /\
        length results = length downloadables /\
        results !! k = Some false /\
        download_all api dataset_id output_dir sample_ids filenames max_workers verbose s =
          (inr tt, s1,
           header_events api sample_ids max_workers verbose ++
           [ThreadPoolExecutor (clamp_max_workers sample_ids max_workers)] ++
           (evs_before ++ warned ++ evs_after) ++ aggregate_events results).
Proof.
  intros Hk fn downloadables.
  destruct (executor_map_order (pool_choice api) fn downloadables)
    as (order & Hperm & Hmap).
  assert (Hin : (k, (sample_id, filename)) ∈ order).
  { rewrite Hperm. apply list_elem_of_lookup. exists k. apply lookup_zip_Some.
    split; [|exact Hk]. apply lookup_seq_lt. eapply lookup_lt_Some. exact Hk. }
  apply list_elem_of_split in Hin as (before & after & ->).
  destruct (run_tasks_lambda__total output_dir verbose before s)
    as (r_before & s_k & evs_before & Hbefore & _).
  exists before, after, r_before, s_k, evs_before.
  split; [exact Hperm|]. split; [exact Hbefore|].
  intros e Hraise.
  destruct (step_raises_download_image output_dir sample_id filename s_k e Hraise)
    as (s_e & evs_e & Hbody).
  destruct (run_tasks_lambda__total output_dir verbose after s_e)
    as (r_after & s1 & evs_after & Hafter & _).
  assert (Hitem : fn (sample_id, filename) s_k =
    (inr false, s_e, evs_e ++ [Warn (item_warning filename e)] ++ tqdm_events verbose)).
  { unfold fn. rewrite lambda__run, Hbody. reflexivity. }
  assert (Hone : List.filter is_read_url_request
                   (evs_e ++ [Warn (item_warning filename e)] ++ tqdm_events verbose) =
                 [GetSampleImageReadUrlById dataset_id sample_id "full"]).
  { destruct (lambda__total output_dir verbose (sample_id, filename) s_k)
      as (b & s' & evs & Hrun & Hreq & _).
    fold fn in Hrun. rewrite Hitem in Hrun. injection Hrun as <- <- <-. exact Hreq. }
  assert (Htail : run_tasks fn ((k, (sample_id, filename)) :: after) s_k =
    (inr ((k, false) :: r_after), s1,
     (evs_e ++ [Warn (item_warning filename e)] ++ tqdm_events verbose) ++ evs_after)).
  { rewrite run_tasks_cons, Hitem. fold fn in Hafter. now rewrite Hafter. }
  pose proof (run_tasks_app fn before _ s s_k s1 _ _ _ _ Hbefore Htail) as Hall.
  destruct (Hmap s s1 _ _ Hall) as (results & Hexec & Hlen & Hres).
  exists s_e, evs_e, r_after, s1, evs_after, results. cbv zeta.
  fold (item_warning filename e).
  split; [exact Hitem|]. split; [exact Hone|]. split; [exact Hafter|].
  split; [exact Hexec|]. split; [exact Hlen|]. split.
  - apply Hres. apply elem_of_app. right. now left.
  - now apply download_all_run.
Qed.
End Download.

(** * Download of the embeddings: properties *)

Section Embeddings.
Context {W Img : Type}.
Variable api : Collaborators W Img.
Variable dataset_id : string.

(** C7. Once the embeddings of the dataset are listed:
    [download_embeddings_csv] raises its [RuntimeError] (before anything
    else is requested) if and only if no descriptor has a name starting
    with ["default"]; otherwise it resolves the latest default
    descriptor, requests the signed read URL of that descriptor's CSV and,
    when that request and the download succeed, [output_path] holds the
    downloaded CSV, whatever it held before. *)
Theorem download_embeddings_csv_latest_default
    (output_path : string) (s : Store W)
    (embeddings : list DatasetEmbeddingData.t) (w1 : W) :
  get_embeddings_by_dataset_id api dataset_id (world s) = (inr embeddings, w1) ->
  let run := download_embeddings_csv api dataset_id output_path s in
  let s1 := {| world := w1; files := files s |} in
  let not_found :=
    Raise RuntimeError
      ("Could not find embeddings for dataset with id '" +:+ dataset_id +:+ "'.") in
  (run = (inl not_found, s1, [GetEmbeddingsByDatasetId dataset_id]) <->
   forall e, In e embeddings ->
     String.prefix "default" (DatasetEmbeddingData.name e) = false) /\
  ((exists e, In e embeddings /\
              String.prefix "default" (DatasetEmbeddingData.name e) = true) ->
   exists last_embedding,
     _get_latest_default_embedding_data embeddings = Some last_embedding /\
     In last_embedding embeddings /\
     String.prefix "default" (DatasetEmbeddingData.name last_embedding) = true /\
     (forall e, In e embeddings ->
        String.prefix "default" (DatasetEmbeddingData.name e) = true ->
        DatasetEmbeddingData.created_at e <= DatasetEmbeddingData.created_at last_embedding) /\
     let embedding_id := DatasetEmbeddingData.id last_embedding in
     run =
       (let '(r, s2, evs) :=
          download_embeddings_csv_by_id api dataset_id embedding_id output_path s1 in
        (r, s2, GetEmbeddingsByDatasetId dataset_id :: evs)) /\
     (forall ex, result run = inl ex ->
        (exists w2,
           get_embeddings_csv_read_url_by_id api dataset_id embedding_id w1 = (inl ex, w2)) \/
        (exists read_url w2 w3,
           get_embeddings_csv_read_url_by_id api dataset_id embedding_id w1
             = (inr read_url, w2) /\
           requests_get api read_url w2 = (inl ex, w3))) /\
     (forall read_url w2 blob w3,
        get_embeddings_csv_read_url_by_id api dataset_id embedding_id w1
          = (inr read_url, w2) ->
        requests_get api read_url w2 = (inr blob, w3) ->
        run = (inr tt,
               {| world := w3; files := <[output_path := blob]> (files s) |},
               [GetEmbeddingsByDatasetId dataset_id;
                GetEmbeddingsCsvReadUrlById dataset_id embedding_id;
                RequestsGet read_url]) /\
        files (store run) !! output_path = Some blob)).
Proof.
  intros Hlist run s1 not_found.
  assert (Hrun : run =
    match _get_latest_default_embedding_data embeddings with
    | None => (inl not_found, s1, [GetEmbeddingsByDatasetId dataset_id])
    | Some last_embedding =>
        let '(r, s2, evs) :=
          download_embeddings_csv_by_id api dataset_id
            (DatasetEmbeddingData.id last_embedding) output_path s1 in
        (r, s2, GetEmbeddingsByDatasetId dataset_id :: evs)
    end).
  { subst run. unfold download_embeddings_csv, get_all_embedding_data, bind, call, raise.
    rewrite Hlist.
    destruct (_get_latest_default_embedding_data embeddings) as [last_embedding|];
      [|reflexivity].
    fold s1.
    destruct (download_embeddings_csv_by_id _ _ _ _ s1) as [[r s2] evs]. reflexivity. }
  assert (Hby_id : forall embedding_id,
    download_embeddings_csv_by_id api dataset_id embedding_id output_path s1 =
    match get_embeddings_csv_read_url_by_id api dataset_id embedding_id w1 with
    | (inl ex, w2) =>
        (inl ex, {| world := w2; files := files s |},
         [GetEmbeddingsCsvReadUrlById dataset_id embedding_id])
    | (inr read_url, w2) =>
        match requests_get api read_url w2 with
        | (inl ex, w3) =>
            (inl ex, {| world := w3; files := files s |},
             [GetEmbeddingsCsvReadUrlById dataset_id embedding_id; RequestsGet read_url])
        | (inr blob, w3) =>
            (inr tt, {| world := w3; files := <[output_path := blob]> (files s) |},
             [GetEmbeddingsCsvReadUrlById dataset_id embedding_id; RequestsGet read_url])
        end
    end).
  { intros embedding_id.
    unfold download_embeddings_csv_by_id, download_and_write_file, write_file, bind, call.
    simpl.
    destruct (get_embeddings_csv_read_url_by_id _ _ _ _) as [[ex|read_url] w2];
      [reflexivity|]. simpl.
    destruct (requests_get _ _ _) as [[ex|blob] w3]; reflexivity. }
  split.
  - rewrite <- (latest_default_None embeddings). rewrite Hrun.
    destruct (_get_latest_default_embedding_data embeddings) as [last_embedding|].
    + split; [|discriminate]. rewrite Hby_id.
      destruct (get_embeddings_csv_read_url_by_id _ _ _ _) as [[ex|read_url] w2];
        [discriminate|].
      destruct (requests_get _ _ _) as [[ex|blob] w3]; discriminate.
    + split; reflexivity.
  - intros (e0 & Hin0 & Hdef0).
    destruct (_get_latest_default_embedding_data embeddings) as [last_embedding|] eqn:Hlatest.
    2:{ pose proof (proj1 (latest_default_None embeddings) Hlatest e0 Hin0) as Hc.
        unfold is_default in Hc. congruence. }
    destruct (latest_default_Some embeddings last_embedding Hlatest) as (Hin & Hdef & Hmax).
    exists last_embedding. split; [reflexivity|]. split; [exact Hin|].
    split; [exact Hdef|]. split; [exact Hmax|]. cbv zeta.
    split; [exact Hrun|]. rewrite Hrun, Hby_id. split.
    + intros ex.
      destruct (get_embeddings_csv_read_url_by_id _ _ _ _) as [[ex'|read_url] w2];
        simpl; [intros [= ->]; eauto|].
      destruct (requests_get _ _ _) as [[ex'|blob] w3] eqn:Hget; simpl;
        [intros [= ->]|discriminate].
      right. eauto.
    + intros read_url w2 blob w3 -> ->. split; [reflexivity|]. simpl.
      apply lookup_insert_eq.
Qed.
End Embeddings.

(** * The loss: properties *)

Section LossProperties.
Context {T S : Type} `{Torch T S}.

Lemma unpack2_Tuple (z p : T) : unpack2 (Tuple [z; p]) = inr (z, p).
Proof. reflexivity. Qed.

(** The run of [forward] on arguments that unpack. *)
Lemma forward_run (out0 out1 : PyObject T) (z0 p0 z1 p1 : T) (s : unit) :
  unpack2 out0 = inr (z0, p0) ->
  unpack2 out1 = inr (z1, p1) ->
  forward out0 out1 s =
  match cosine_similarity p0 (detach z1) with
  | inl e => (inl e, s, [(p0, detach z1)])
  | inr c01 =>
      match cosine_similarity p1 (detach z0) with
      | inl e => (inl e, s, [(p0, detach z1); (p1, detach z0)])
      | inr c10 =>
          (inr (add (div2 (neg (mean c01))) (div2 (neg (mean c10)))), s,
           [(p0, detach z1); (p1, detach z0)])
      end
  end.
Proof.
  intros H0 H1. unfold forward, _neg_cosine_simililarity, bind, lift, ret.
  rewrite H0, H1. simpl.
  destruct (cosine_similarity p0 (detach z1)) as [e|c01]; [reflexivity|]. simpl.
  destruct (cosine_similarity p1 (detach z0)) as [e|c10]; reflexivity.
Qed.

(** C8. The loss is symmetrised. Provided the addition of the tensor
    library is commutative (as addition of real numbers and of IEEE
    floating-point numbers is): for all inputs [out0 = (z0, p0)] and
    [out1 = (z1, p1)], [forward(out0, out1)] returns a value exactly when
    [forward(out1, out0)] returns it; and when both similarities are
    defined that value is, for both orders, half the negated mean cosine
    similarity of [(p0, z1)] plus half that of [(p1, z0)]. *)
Theorem forward_symmetric (z0 p0 z1 p1 : T) (s : unit) :
  (forall a b : S, add a b = add b a) ->
  let out0 := Tuple [z0; p0] in
  let out1 := Tuple [z1; p1] in
  (forall v,
     result (forward out0 out1 s) = inr v <-> result (forward out1 out0 s) = inr v) /\
  (forall c01 c10,
     cosine_similarity p0 (detach z1) = inr c01 ->
     cosine_similarity p1 (detach z0) = inr c10 ->
     let loss := add (div2 (neg (mean c01))) (div2 (neg (mean c10))) in
     result (forward out0 out1 s) = inr loss /\
     result (forward out1 out0 s) = inr loss).
Proof.
  intros add_comm out0 out1.
  rewrite (forward_run out0 out1 z0 p0 z1 p1 s) by reflexivity.
  rewrite (forward_run out1 out0 z1 p1 z0 p0 s) by reflexivity.
  split.
  - intros v.
    destruct (cosine_similarity p0 (detach z1)) as [e|c01],
             (cosine_similarity p1 (detach z0)) as [e'|c10]; simpl;
      try (split; discriminate).
    rewrite (add_comm (div2 (neg (mean c10)))). reflexivity.
  - intros c01 c10 -> ->. simpl. split; [reflexivity|].
    now rewrite (add_comm (div2 (neg (mean c10)))).
Qed.

(** C10 (as amended). [forward] requires each argument to unpack, by
    iteration, into exactly two tensors [(z, p)]: for every argument that
    does not, [forward] raises the error of the unpacking before any
    similarity is computed. A tuple unpacks exactly when it has two
    items; a plain single tensor is iterated along its first dimension,
    so it unpacks exactly when it has two slices along it. *)
Theorem forward_unpacks_two (out0 out1 : PyObject T) (s : unit) :
  (forall e, unpack2 out0 = inl e -> forward out0 out1 s = (inl e, s, [])) /\
  (forall zp e,
     unpack2 out0 = inr zp -> unpack2 out1 = inl e ->
     forward out0 out1 s = (inl e, s, [])) /\
  (forall o : PyObject T,
     (exists z p, iter o = inr [z; p] /\ unpack2 o = inr (z, p)) \/
     (exists e, unpack2 o = inl e /\ forall z p, iter o <> inr [z; p])) /\
  (forall items : list T,
     (exists zp, unpack2 (Tuple items) = inr zp) <-> length items = 2%nat) /\
  (forall t : T,
     (exists zp, unpack2 (Tensor t) = inr zp) <-> exists z p, unbind0 t = inr [z; p]).
Proof.
  assert (Hcases : forall o : PyObject T,
     (exists z p, iter o = inr [z; p] /\ unpack2 o = inr (z, p)) \/
     (exists e, unpack2 o = inl e /\ forall z p, iter o <> inr [z; p])).
  { intros o. unfold unpack2.
    destruct (iter o) as [e|[|z [|p [|q items]]]]; simpl; eauto;
      right; eexists; (split; [reflexivity|]); congruence. }
  split; [|split; [|split; [exact Hcases|split]]].
  - intros e He. unfold forward, bind, lift. now rewrite He.
  - intros [z0 p0] e H0 H1. unfold forward, bind, lift. rewrite H0. simpl. now rewrite H1.
  - intros items. split.
    + intros [zp Hzp]. destruct (Hcases (Tuple items)) as [(z & p & Hiter & _)|(e & He & _)];
        [|congruence].
      simpl in Hiter. injection Hiter as ->. reflexivity.
    + destruct items as [|z [|p [|q items]]]; simpl; try discriminate.
      intros _. now exists (z, p).
  - intros t. split.
    + intros [zp Hzp]. destruct (Hcases (Tensor t)) as [(z & p & Hiter & _)|(e & He & _)];
        [|congruence].
      eauto.
    + intros (z & p & Hiter). exists (z, p). unfold unpack2. simpl. now rewrite Hiter.
Qed.
End LossProperties.

(** * Further properties of the embedding helpers *)

Section StableSort.
Context {A : Type} (key : A -> Z).

(** The last element of the sorted list is, in the list, the last of
    the elements with the largest key. *)
Lemma sorted_last_of_the_largest (l : list A) (e : A) :
  last (sorted l key) = Some e -> last_of_the_largest key l e.
Proof.
  revert e. induction l as [|x l IH]; intros e; [discriminate|].
  simpl. destruct l as [|x' l'] eqn:Hl.
  - simpl. intros [= <-]. exists [], []. split; [reflexivity|]. split; intros y [].
  - rewrite <- Hl in *.
    destruct (sorted_last key l) as [m Hm]; [congruence|].
    pose proof (insert_by_key_last key x _ m Hm) as [Hlast _].
    rewrite Hlast. intros [= <-].
    destruct Hm as [Hm Hmax].
    destruct (Z.leb_spec (key x) (key m)) as [Hxm|Hxm].
    + destruct (IH m Hm) as (before & after & -> & Hb & Ha).
      exists (x :: before), after. split; [reflexivity|]. split; [|exact Ha].
      intros y [<-|Hy]; auto.
    + exists [], l. split; [reflexivity|]. split; [intros y []|].
      intros y Hy. apply (sorted_In key) in Hy. specialize (Hmax y Hy). lia.
Qed.
End StableSort.

Lemma filter_eq_middle {A : Type} (p : A -> bool) (l before after : list A) (e : A) :
  List.filter p l = before ++ e :: after ->
  exists l1 l2, l = l1 ++ e :: l2 /\ List.filter p l1 = before /\ List.filter p l2 = after.
Proof.
  revert before. induction l as [|x l IH]; intros before; simpl.
  - destruct before; discriminate.
  - destruct (p x) eqn:Hx.
    + destruct before as [|y before]; simpl.
      * intros [= -> Hrest]. exists [], l. auto.
      * intros [= -> Hrest]. destruct (IH _ Hrest) as (l1 & l2 & -> & H1 & H2).
        exists (y :: l1), l2. simpl. rewrite Hx, H1. auto.
    + intros Hrest. destruct (IH _ Hrest) as (l1 & l2 & -> & H1 & H2).
      exists (x :: l1), l2. simpl. rewrite Hx. auto.
Qed.

(** Two places of a list, one before the other: the element at the
    first is among those before the second, and the element at the
    second among those after the first. *)
Lemma middle_before_after {A : Type} (l bx ax byy ay : list A) (x y : A) :
  l = bx ++ x :: ax -> l = byy ++ y :: ay ->
  (length bx < length byy)%nat -> In x byy /\ In y ax.
Proof.
  intros Hx Hy Hlt.
  assert (Hlx : l !! length bx = Some x) by (rewrite Hx; apply list_lookup_middle, eq_refl).
  assert (Hly : l !! length byy = Some y) by (rewrite Hy; apply list_lookup_middle, eq_refl).
  split; apply list_elem_of_In.
  - rewrite Hy, lookup_app_l in Hlx by exact Hlt.
    eapply list_elem_of_lookup_2. exact Hlx.
  - rewrite Hx, lookup_app_r in Hly by lia.
    destruct (length byy - length bx)%nat as [|j] eqn:Hj; [lia|]. simpl in Hly.
    eapply list_elem_of_lookup_2. exact Hly.
Qed.

(** X1. [_get_latest_default_embedding_data] returns a descriptor exactly
    when it is, in the order of the list, the last of the default
    descriptors with the latest creation timestamp: its name starts with
    ["default"], no default descriptor before it in the list is newer,
    and every default descriptor after it is strictly older. So among
    default descriptors created at the same time the one listed last is
    returned, and the descriptors with other names play no part. *)
Theorem latest_default_is_last_of_the_latest
    (embeddings : list DatasetEmbeddingData.t) (e : DatasetEmbeddingData.t) :
  _get_latest_default_embedding_data embeddings = Some e <->
  exists before after,
    embeddings = before ++ e :: after /\
    String.prefix "default" (DatasetEmbeddingData.name e) = true /\
    (forall e', In e' before ->
       String.prefix "default" (DatasetEmbeddingData.name e') = true ->
       DatasetEmbeddingData.created_at e' <= DatasetEmbeddingData.created_at e) /\
    (forall e', In e' after ->
       String.prefix "default" (DatasetEmbeddingData.name e') = true ->
       DatasetEmbeddingData.created_at e' < DatasetEmbeddingData.created_at e).
Proof.
  assert (Hfwd : forall e0,
    _get_latest_default_embedding_data embeddings = Some e0 ->
    exists before after,
      embeddings = before ++ e0 :: after /\ is_default e0 = true /\
      (forall e', In e' before -> is_default e' = true ->
         DatasetEmbeddingData.created_at e' <= DatasetEmbeddingData.created_at e0) /\
      (forall e', In e' after -> is_default e' = true ->
         DatasetEmbeddingData.created_at e' < DatasetEmbeddingData.created_at e0)).
  { intros e0 He0.
    destruct (latest_default_Some embeddings e0 He0) as (_ & Hdef & _).
    revert He0. unfold _get_latest_default_embedding_data. fold is_default.
    destruct (List.filter is_default embeddings) as [|d ds] eqn:Hf; [discriminate|].
    intros Hlast. apply sorted_last_of_the_largest in Hlast as (b & a & Heq & Hb & Ha).
    rewrite <- Hf in Heq. apply filter_eq_middle in Heq as (l1 & l2 & -> & <- & <-).
    exists l1, l2. split; [reflexivity|]. split; [exact Hdef|]. split.
    - intros e' Hin Hd. apply Hb. apply filter_In. auto.
    - intros e' Hin Hd. apply Ha. apply filter_In. auto. }
  split; [exact (Hfwd e)|].
  intros (before & after & Heq & Hdef & Hb & Ha).
  destruct (_get_latest_default_embedding_data embeddings) as [e0|] eqn:He0.
  - f_equal.
    destruct (Hfwd e0 eq_refl) as (b0 & a0 & Heq0 & Hdef0 & Hb0 & Ha0).
    destruct (Nat.lt_trichotomy (length b0) (length before)) as [Hlt|[Hlen|Hlt]].
    + destruct (middle_before_after _ _ _ _ _ _ _ Heq0 Heq Hlt) as [Hin0 Hin].
      pose proof (Hb e0 Hin0 Hdef0). pose proof (Ha0 e Hin Hdef). lia.
    + assert (Hl0 : embeddings !! length b0 = Some e0)
        by (rewrite Heq0; apply list_lookup_middle, eq_refl).
      assert (Hl : embeddings !! length before = Some e)
        by (rewrite Heq; apply list_lookup_middle, eq_refl).
      congruence.
    + destruct (middle_before_after _ _ _ _ _ _ _ Heq Heq0 Hlt) as [Hin Hin0].
      pose proof (Hb0 e Hin Hdef). pose proof (Ha e0 Hin0 Hdef0). lia.
  - pose proof (proj1 (latest_default_None embeddings) He0 e) as Hnone.
    unfold is_default in Hnone. rewrite Hnone in Hdef; [discriminate|].
    rewrite Heq. apply in_or_app. right. now left.
Qed.

(** X2. When the default descriptors have pairwise distinct creation
    timestamps, the order in which the descriptors are listed does not
    matter: [_get_latest_default_embedding_data] returns the same
    descriptor on every permutation of the list. *)
Theorem latest_default_order_independent
    (embeddings embeddings' : list DatasetEmbeddingData.t) :
  embeddings ≡ₚ embeddings' ->
  (forall e e', In e embeddings -> In e' embeddings ->
     String.prefix "default" (DatasetEmbeddingData.name e) = true ->
     String.prefix "default" (DatasetEmbeddingData.name e') = true ->
     DatasetEmbeddingData.created_at e = DatasetEmbeddingData.created_at e' -> e = e') ->
  _get_latest_default_embedding_data embeddings =
  _get_latest_default_embedding_data embeddings'.
Proof.
  intros Hperm Hdistinct.
  assert (Hin : forall e, In e embeddings <-> In e embeddings').
  { intros e. rewrite <- !list_elem_of_In. now rewrite Hperm. }
  destruct (_get_latest_default_embedding_data embeddings) as [e|] eqn:He,
           (_get_latest_default_embedding_data embeddings') as [e'|] eqn:He'.
  - apply latest_default_Some in He as (Hi & Hd & Hmax).
    apply latest_default_Some in He' as (Hi' & Hd' & Hmax').
    apply Hin in Hi'. f_equal. apply Hdistinct; auto.
    pose proof (Hmax e' Hi' Hd'). pose proof (Hmax' e (proj1 (Hin e) Hi) Hd). lia.
  - apply latest_default_Some in He as (Hi & Hd & _).
    pose proof (proj1 (latest_default_None embeddings') He' e (proj1 (Hin e) Hi)).
    congruence.
  - apply latest_default_Some in He' as (Hi' & Hd' & _).
    pose proof (proj1 (latest_default_None embeddings) He e' (proj2 (Hin e') Hi')).
    congruence.
  - reflexivity.
Qed.

Section EmbeddingLookup.
Context {W Img : Type}.
Variable api : Collaborators W Img.
Variable dataset_id : string.

Lemma find_first_named (name : string) (embeddings : list DatasetEmbeddingData.t)
    (e : DatasetEmbeddingData.t) :
  List.find (fun e' => String.eqb (DatasetEmbeddingData.name e') name) embeddings = Some e <->
  exists before after,
    embeddings = before ++ e :: after /\
    DatasetEmbeddingData.name e = name /\
    forall e', In e' before -> DatasetEmbeddingData.name e' <> name.
Proof.
  induction embeddings as [|x l IH]; simpl.
  - split; [discriminate|]. intros (before & after & Heq & _). destruct before; discriminate.
  - destruct (String.eqb_spec (DatasetEmbeddingData.name x) name) as [Hx|Hx].
    + split.
      * intros [= ->]. exists [], l. split; [reflexivity|]. split; [exact Hx|intros e' []].
      * intros ([|y before] & after & Heq & Hname & Hbefore); simpl in Heq.
        -- congruence.
        -- injection Heq as <- _. destruct (Hbefore x (or_introl eq_refl) Hx).
    + rewrite IH. split.
      * intros (before & after & -> & Hname & Hbefore).
        exists (x :: before), after. split; [reflexivity|]. split; [exact Hname|].
        intros e' [<-|Hin]; auto.
      * intros ([|y before] & after & Heq & Hname & Hbefore); simpl in Heq.
        -- injection Heq as -> _. contradiction.
        -- injection Heq as <- ->. exists before, after. split; [reflexivity|].
           split; [exact Hname|]. intros e' Hin. apply Hbefore. now right.
Qed.

Lemma find_named_None (name : string) (embeddings : list DatasetEmbeddingData.t) :
  List.find (fun e' => String.eqb (DatasetEmbeddingData.name e') name) embeddings = None <->
  forall e, In e embeddings -> DatasetEmbeddingData.name e <> name.
Proof.
  split.
  - intros Hnone e Hin Heq.
    pose proof (find_none _ _ Hnone e Hin) as Hf. simpl in Hf.
    apply String.eqb_neq in Hf. contradiction.
  - intros Hall. destruct (List.find _ embeddings) as [e|] eqn:Hf; [|reflexivity].
    apply find_some in Hf as [Hin Heq]. apply String.eqb_eq in Heq.
    destruct (Hall e Hin Heq).
Qed.

(** X3. Once the embeddings are listed, [get_embedding_data_by_name]
    returns a descriptor exactly when it is the first descriptor of the
    list with that name (descriptors later in the list with the same name
    are never returned); it has then made the one request of the listing
    and written no file. *)
Theorem get_embedding_data_by_name_first_match (name : string) (s : Store W)
    (embeddings : list DatasetEmbeddingData.t) (w1 : W) :
  get_embeddings_by_dataset_id api dataset_id (world s) = (inr embeddings, w1) ->
  forall e,
    get_embedding_data_by_name api dataset_id name s =
      (inr e, {| world := w1; files := files s |}, [GetEmbeddingsByDatasetId dataset_id]) <->
    exists before after,
      embeddings = before ++ e :: after /\
      DatasetEmbeddingData.name e = name /\
      forall e', In e' before -> DatasetEmbeddingData.name e' <> name.
Proof.
  intros Hlist e. rewrite <- find_first_named.
  unfold get_embedding_data_by_name, get_all_embedding_data, bind, call, ret, raise.
  rewrite Hlist.
  destruct (List.find _ embeddings) as [e'|]; simpl.
  - split; intros [= ->]; reflexivity.
  - split; discriminate.
Qed.

(** X4. [get_embedding_data_by_name] raises either the exception of the
    listing of the embeddings or, the embeddings being listed, its
    [ValueError] (whose text holds the name and the dataset id) when no
    descriptor has the name, and nothing else; whatever its outcome it
    makes the one request of the listing and writes no file. *)
Theorem get_embedding_data_by_name_errors (name : string) (s : Store W) :
  let run := get_embedding_data_by_name api dataset_id name s in
  let not_found :=
    Raise ValueError
      ("There are no embeddings with name '" +:+ name +:+
       "' for dataset with id '" +:+ dataset_id +:+ "'.") in
  (forall ex,
     result run = inl ex <->
     (exists w1, get_embeddings_by_dataset_id api dataset_id (world s) = (inl ex, w1)) \/
     (exists embeddings w1,
        get_embeddings_by_dataset_id api dataset_id (world s) = (inr embeddings, w1) /\
        (forall e, In e embeddings -> DatasetEmbeddingData.name e <> name) /\
        ex = not_found)) /\
  files (store run) = files s /\
  events run = [GetEmbeddingsByDatasetId dataset_id].
Proof.
  intros run not_found. subst run.
  unfold get_embedding_data_by_name, get_all_embedding_data, bind, call, ret, raise.
  destruct (get_embeddings_by_dataset_id api dataset_id (world s)) as [[ex0|embeddings] w1];
    simpl.
  - split; [|split; reflexivity]. intros ex. split.
    + intros [= ->]. left. now exists w1.
    + intros [(w & [= -> _])|(l & w & [=] & _)]. reflexivity.
  - pose proof (find_named_None name embeddings) as Hnone.
    destruct (List.find _ embeddings) as [e'|]; simpl.
    + split; [|split; reflexivity]. intros ex. split; [discriminate|].
      intros [(w & [=])|(l & w & [= <- _] & Habsent & _)].
      apply Hnone in Habsent. discriminate.
    + split; [|split; reflexivity]. intros ex. split.
      * intros [= <-]. right. exists embeddings, w1. split; [reflexivity|].
        split; [now apply Hnone|reflexivity].
      * intros [(w & [=])|(l & w & _ & _ & ->)]. reflexivity.
Qed.
(** X17. When the descriptors of the dataset have pairwise distinct
    names, the lookup by name finds the descriptor that
    [_get_latest_default_embedding_data] selects: looking up the name of
    the latest default descriptor returns that descriptor. *)
Theorem latest_default_is_found_by_its_name (s : Store W)
    (embeddings : list DatasetEmbeddingData.t) (w1 : W) (e : DatasetEmbeddingData.t) :
  get_embeddings_by_dataset_id api dataset_id (world s) = (inr embeddings, w1) ->
  NoDup (DatasetEmbeddingData.name <$> embeddings) ->
  _get_latest_default_embedding_data embeddings = Some e ->
  result (get_embedding_data_by_name api dataset_id (DatasetEmbeddingData.name e) s) = inr e.
Proof.
  intros Hlist Hnames Hlatest.
  apply latest_default_Some in Hlatest as (Hin & _).
  unfold get_embedding_data_by_name, get_all_embedding_data, bind, call, ret, raise, result.
  rewrite Hlist.
  destruct (List.find _ embeddings) as [e'|] eqn:Hfind; simpl.
  - apply find_some in Hfind as [Hin' Heq]. apply String.eqb_eq in Heq.
    apply list_elem_of_In, list_elem_of_lookup in Hin as [i Hi].
    apply list_elem_of_In, list_elem_of_lookup in Hin' as [j Hj].
    assert (i = j) as ->.
    { eapply NoDup_lookup; [exact Hnames| |].
      - rewrite list_lookup_fmap, Hi. reflexivity.
      - rewrite list_lookup_fmap, Hj. simpl. now rewrite Heq. }
    congruence.
  - pose proof (find_none _ _ Hfind e Hin) as Hne. simpl in Hne.
    rewrite String.eqb_refl in Hne. discriminate.
Qed.
End EmbeddingLookup.

(** * Further properties of the download *)

(** Case analysis on the outcome of each collaborator called in a run,
    innermost call first. *)
Ltac head_of t :=
  lazymatch t with
  | ?f _ => head_of f
  | _ => t
  end.

Ltac is_outcome t :=
  let h := head_of t in
  first [is_const h | is_var h];
  lazymatch h with
  | @result => fail
  | @store => fail
  | @events => fail
  | _ => idtac
  end.

Ltac run_outcomes :=
  repeat (simpl;
          match goal with
          | |- context [match ?op with (_, _) => _ end] =>
              is_outcome op; destruct op as [[?|?] ?]
          | |- context [match ?r with inl _ => _ | inr _ => _ end] =>
              is_outcome r; destruct r
          | |- context [match ?o with Some _ => _ | None => _ end] =>
              is_outcome o; destruct o
          | |- context [if ?b then _ else _] => is_outcome b; destruct b
          end);
  simpl.

(** A list of events is a prefix of a list that is written out. *)
Ltac prefix_steps :=
  repeat first [apply prefix_nil | apply prefix_cons | reflexivity].

Lemma String_prefix_app (p x : string) : String.prefix p (p +:+ x) = true.
Proof.
  induction p as [|a p IH].
  - change ("" +:+ x) with x. destruct x; reflexivity.
  - change (String a p +:+ x) with (String a (p +:+ x)). simpl.
    destruct (ascii_dec a a); [exact IH|congruence].
Qed.

Lemma filter_length_Permutation {A : Type} (p : A -> bool) (l l' : list A) :
  l ≡ₚ l' -> length (List.filter p l) = length (List.filter p l').
Proof.
  induction 1 as [|x l l' _ IH|x y l|l l' l'' _ IH _ IH']; simpl.
  - reflexivity.
  - destruct (p x); simpl; congruence.
  - destruct (p x), (p y); reflexivity.
  - congruence.
Qed.

Lemma filter_Forall_id {A : Type} (p : A -> bool) (l : list A) :
  Forall (fun x => p x = true) l -> List.filter p l = l.
Proof.
  induction 1 as [|x l Hx _ IH]; simpl; [reflexivity|]. now rewrite Hx, IH.
Qed.

Lemma filter_filter_negb {A : Type} (p : A -> bool) (l : list A) :
  List.filter p (List.filter (fun x => negb (p x)) l) = [].
Proof.
  induction l as [|x l IH]; simpl; [reflexivity|].
  destruct (p x) eqn:Hx; simpl; [exact IH|]. now rewrite Hx.
Qed.

Section ItemSteps.
Context {W Img : Type}.
Variable api : Collaborators W Img.
Variable dataset_id : string.

(** X5. [_make_dir_and_save_image] creates the directory of the path
    only when it is missing, and does so before it saves: when the
    directory exists its first step is the save, when it is missing its
    first step is [os.makedirs]; the close follows the save, and a step
    that raises ends the function. *)
Theorem directory_is_created_only_when_missing
    (output_dir filename : string) (img : Img) (s : Store W) :
  let path := os_path_join api output_dir filename in
  let head := os_path_split_head api path in
  let run := _make_dir_and_save_image api output_dir filename img s in
  if os_path_exists api head (world s) then
    exists rest, events run = ImgSave path :: rest /\ rest `prefix_of` [ImgClose]
  else
    exists rest,
      events run = OsMakedirs head :: rest /\ rest `prefix_of` [ImgSave path; ImgClose].
Proof.
  intros path head run. subst run path head.
  unfold _make_dir_and_save_image, bind, call, ask, ret, emit, write_file, events.
  run_outcomes; eexists; (split; [reflexivity|]); prefix_steps.
Qed.

(** X6. [_make_dir_and_save_image] returns exactly when it has closed
    the image, which is its last step: when the creation of the
    directory or the save raises, the image is left open. When it
    returns, the path holds what [img.save] wrote. *)
Theorem image_is_closed_only_on_success
    (output_dir filename : string) (img : Img) (s : Store W) :
  let path := os_path_join api output_dir filename in
  let run := _make_dir_and_save_image api output_dir filename img s in
  (result run = inr tt <-> last (events run) = Some ImgClose) /\
  (result run = inr tt <-> In ImgClose (events run)) /\
  (result run = inr tt ->
   exists contents w0 w1,
     img_save api img path w0 = (inr contents, w1) /\
     store run = {| world := w1; files := <[path := contents]> (files s) |}).
Proof.
  intros path run. subst run path.
  unfold _make_dir_and_save_image, bind, call, ask, ret, emit, write_file,
    result, events, store.
  destruct (os_path_exists api _ (world s)); simpl.
  - destruct (img_save api img _ (world s)) as [[e|contents] w1] eqn:Hsave; simpl.
    + repeat split; try discriminate. intros [[=]|[]].
    + repeat split; auto. eauto 10.
  - destruct (os_makedirs api _ (world s)) as [[e|[]] w0]; simpl.
    + repeat split; try discriminate. intros [[=]|[]].
    + destruct (img_save api img _ w0) as [[e|contents] w1] eqn:Hsave; simpl.
      * repeat split; try discriminate. intros [[=]|[[=]|[]]].
      * repeat split; auto. eauto 10.
Qed.

End ItemSteps.

Section Listing.
Context {W Img : Type}.
Variable api : Collaborators W Img.
Variable dataset_id : string.

(** The listing writes no file; when it raises, its requests are the
    first of the four, and when it returns, all four. *)
Lemma resolve_tag_listing (tag_name : string) (s : Store W) :
  let run := resolve_tag api dataset_id tag_name s in
  files (store run) = files s /\
  match result run with
  | inl _ => events run `prefix_of` listing_events dataset_id
  | inr _ => events run = listing_events dataset_id
  end.
Proof.
  unfold resolve_tag, listing_events, bind, call, lift, ret, raise.
  run_outcomes; (split; [reflexivity|]); try reflexivity; prefix_steps.
Qed.

(** X8. [download_dataset] raises only while it lists: when it raises,
    whatever the exception, its requests are the first of the four
    listings (the dataset, the tags, the sample ids, the filenames), in
    that order, so that no read URL has been requested and no pool
    created, and no file has been written; when it returns, the four
    listings were its first requests. *)
Theorem download_dataset_raises_only_while_listing
    (output_dir tag_name : string) (max_workers : Z) (verbose : bool) (s : Store W) :
  let run := download_dataset api dataset_id output_dir tag_name max_workers verbose s in
  (forall e, result run = inl e ->
     events run `prefix_of` listing_events dataset_id /\
     files (store run) = files s) /\
  (result run = inr tt -> listing_events dataset_id `prefix_of` events run).
Proof.
  intros run. subst run.
  destruct (resolve_tag_listing tag_name s) as [Hfiles Hevs].
  unfold download_dataset, bind.
  destruct (resolve_tag api dataset_id tag_name s)
    as [[[e|[[indices sample_ids] filenames]] s1] evs];
    unfold result, store, events in *; simpl in *.
  - split; [|discriminate]. intros e' _. auto.
  - destruct (executor_map_lambda__total api dataset_id output_dir verbose (pool_choice api)
                (zip sample_ids filenames) s1)
      as (order & done & results & s2 & evs' & _ & _ & _ & Hpool & _).
    rewrite (download_all_run api dataset_id output_dir sample_ids filenames max_workers
               verbose s1 s2 results evs' Hpool).
    simpl. split; [discriminate|]. intros _. rewrite Hevs. now apply prefix_app_r.
Qed.

(** X9. When several tags of the dataset have the name, the first one
    listed decides what is downloaded: once the dataset has full images
    and the tags are listed, the indices that tag resolution returns are
    those decoded from the bitmask of the first tag with the name,
    whatever the tags after it. *)
Theorem first_tag_with_the_name_is_used (tag_name : string) (s : Store W)
    (dataset : DatasetData) (w1 : W) (before after : list TagData.t) (tag : TagData.t)
    (w2 : W) :
  get_dataset_by_id api dataset_id (world s) = (inr dataset, w1) ->
  img_type dataset = FULL ->
  get_all_tags api w1 = (inr (before ++ tag :: after), w2) ->
  TagData.name tag = tag_name ->
  (forall t, In t before -> TagData.name t <> tag_name) ->
  forall indices sample_ids filenames,
    result (resolve_tag api dataset_id tag_name s) = inr (indices, sample_ids, filenames) ->
    BitMask_from_hex_to_indices api (TagData.bit_mask_data tag) = inr indices.
Proof.
  intros Hds Hfull Htags Hname Hbefore indices sample_ids filenames.
  assert (Hfind : List.find (fun t => String.eqb (TagData.name t) tag_name)
                    (before ++ tag :: after) = Some tag).
  { clear Htags. induction before as [|t before IH]; simpl.
    - now rewrite (proj2 (String.eqb_eq _ _) Hname).
    - rewrite (proj2 (String.eqb_neq _ _) (Hbefore t (or_introl eq_refl))).
      apply IH. intros t' Hin. apply Hbefore. now right. }
  unfold resolve_tag, bind, call, lift, ret, raise, result. simpl.
  rewrite Hds, Hfull. simpl. rewrite Htags, Hfind. simpl.
  destruct (get_sample_mappings_by_dataset_id api dataset_id 25000 "_id" w2)
    as [[e|all_ids] w3]; [discriminate|]. simpl.
  destruct (BitMask_from_hex_to_indices api (TagData.bit_mask_data tag)) as [e|indices'];
    [discriminate|]. simpl.
  destruct (getitems all_ids indices') as [e|ids]; [discriminate|]. simpl.
  destruct (get_filenames api w3) as [[e|all_filenames] w4]; [discriminate|]. simpl.
  destruct (getitems all_filenames indices') as [e|fns]; [discriminate|]. simpl.
  now intros [= -> _ _].
Qed.
End Listing.

Section Batch.
Context {W Img : Type}.
Variable api : Collaborators W Img.
Variable dataset_id : string.

(** The events of an item: the request of its read URL, steps of its
    download, its warning when it fails, and the update of the bar. *)
Lemma lambda__events (output_dir : string) (verbose : bool) (sample_id filename : string)
    (s : Store W) :
  exists b s1 steps warned,
    lambda_ api dataset_id output_dir verbose (sample_id, filename) s =
      (inr b, s1,
       GetSampleImageReadUrlById dataset_id sample_id "full" ::
       steps ++ warned ++ tqdm_events verbose) /\
    Forall (fun ev => is_item_step ev = true) steps /\
    (if b then warned = [] else exists e, warned = [Warn (item_warning filename e)]).
Proof.
  rewrite lambda__run.
  destruct (download_image_events api dataset_id output_dir sample_id filename s)
    as (steps & Hevs & Hsteps).
  pose proof (download_image_true api dataset_id output_dir sample_id filename s) as Htrue.
  destruct (download_image _ _ _ _ _ _) as [[[e|b] s1] evs]; simpl in Hevs, Htrue; subst evs.
  - exists false, s1, steps, [Warn (item_warning filename e)]. simpl.
    split; [reflexivity|]. split; [exact Hsteps|]. now exists e.
  - rewrite (Htrue b eq_refl). exists true, s1, steps, []. simpl. auto.
Qed.

(** The files after an item: only the path of the item may have changed,
    no file has disappeared, and the path of an item that succeeded holds
    a file. *)
Lemma lambda__files (output_dir : string) (verbose : bool) (sample_id filename : string)
    (s : Store W) :
  let path := os_path_join api output_dir filename in
  exists b s1 evs,
    lambda_ api dataset_id output_dir verbose (sample_id, filename) s = (inr b, s1, evs) /\
    (forall p, p <> path -> files s1 !! p = files s !! p) /\
    (forall p, is_Some (files s !! p) -> is_Some (files s1 !! p)) /\
    (b = true -> is_Some (files s1 !! path)).
Proof.
  intros path. subst path.
  unfold lambda_, try_except, download_image, _get_image_from_read_url,
    _make_dir_and_save_image, warnings_warn, bind, call, ask, lift, ret, emit, write_file.
  run_outcomes; eexists _, _, _; (split; [reflexivity|]); simpl;
    repeat split; try discriminate; auto;
    try (intros p Hp; now rewrite lookup_insert_ne by congruence);
    try (intros p [x Hx];
         destruct (decide (os_path_join api output_dir filename = p)) as [->|Hne];
         [rewrite lookup_insert_eq|rewrite lookup_insert_ne by exact Hne]; eauto);
    try (intros _; rewrite lookup_insert_eq; eauto).
Qed.

(** Induction on the run of tasks that do not raise. *)
Lemma run_tasks_inv {A B : Type} (fn : A -> M (Store W) Event B)
    (P : list (nat * A) -> Store W -> list (nat * B) -> Store W -> list Event -> Prop) :
  (forall s, P [] s [] s []) ->
  (forall k a rest s b sa evs done s1 evs',
     fn a s = (inr b, sa, evs) ->
     run_tasks fn rest sa = (inr done, s1, evs') ->
     P rest sa done s1 evs' ->
     P ((k, a) :: rest) s ((k, b) :: done) s1 (evs ++ evs')) ->
  forall order s done s1 evs,
    run_tasks fn order s = (inr done, s1, evs) -> P order s done s1 evs.
Proof.
  intros Hnil Hcons. induction order as [|[k a] rest IH]; intros s done s1 evs.
  - intros [= <- <- <-]. apply Hnil.
  - rewrite run_tasks_cons.
    destruct (fn a s) as [[[e|b] sa] evs0] eqn:Hfn; [discriminate|].
    destruct (run_tasks fn rest sa) as [[[e|done'] sb] evs'] eqn:Hrest; [discriminate|].
    intros [= <- <- <-]. eapply Hcons; eauto.
Qed.

(** The futures of the pool and the list of results that [executor.map]
    returns hold the same results at the same positions. *)
Lemma futures_results {B : Type} (done : list (nat * B)) (results : list B) :
  NoDup done.*1 ->
  (forall k b, (k, b) ∈ done <-> results !! k = Some b) ->
  done ≡ₚ zip (seq 0 (length results)) results.
Proof.
  intros Hnodup Hres. apply NoDup_Permutation.
  - eapply NoDup_fmap_1. exact Hnodup.
  - apply (NoDup_fmap_1 fst). rewrite fst_zip by (rewrite length_seq; lia). apply NoDup_seq.
  - intros [k b]. rewrite Hres. rewrite list_elem_of_lookup. split.
    + intros Hk. exists k. apply lookup_zip_Some. split; [|exact Hk].
      apply lookup_seq_lt. eapply lookup_lt_Some. exact Hk.
    + intros [j Hj]. apply lookup_zip_Some in Hj as [Hj1 Hj2].
      apply lookup_seq in Hj1 as [-> _]. exact Hj2.
Qed.

(** The run of the pool of [download_dataset], with the order in which
    the items were run and the futures they left. *)
Lemma pool_run (output_dir : string) (verbose : bool) (downloadables : list (string * string))
    (s : Store W) :
  let fn := lambda_ api dataset_id output_dir verbose in
  exists order done results s1 evs,
    order ≡ₚ zip (seq 0 (length downloadables)) downloadables /\
    run_tasks fn order s = (inr done, s1, evs) /\
    executor_map (pool_choice api) fn downloadables s = (inr results, s1, evs) /\
    length results = length downloadables /\
    done.*1 = order.*1 /\
    done ≡ₚ zip (seq 0 (length results)) results.
Proof.
  intros fn.
  destruct (executor_map_lambda__total api dataset_id output_dir verbose (pool_choice api)
              downloadables s)
    as (order & done & results & s1 & evs & Hperm & Hrun & Hres & Hpool & Hlen & _).
  exists order, done, results, s1, evs.
  pose proof (run_tasks_positions fn order s s1 done evs Hrun) as Hpos.
  repeat (split; [assumption|]).
  apply futures_results; [|exact Hres].
  rewrite Hpos, Hperm, fst_zip by (rewrite length_seq; lia). apply NoDup_seq.
Qed.

Lemma filter_header_events (p : Event -> bool) (sample_ids : list string) (max_workers : Z)
    (verbose : bool) :
  (forall m, p (Print m) = false) -> (forall n, p (Tqdm n) = false) ->
  List.filter p (header_events api sample_ids max_workers verbose) = [].
Proof.
  intros Hprint Htqdm. unfold header_events.
  destruct verbose; simpl; [|reflexivity]. now rewrite Hprint, Htqdm.
Qed.

Lemma filter_aggregate_events (p : Event -> bool) (results : list bool) :
  (forall m, p (Warn m) = false) -> List.filter p (aggregate_events results) = [].
Proof.
  intros Hwarn. unfold aggregate_events.
  destruct (index_of false results); simpl; [|reflexivity]. now rewrite Hwarn.
Qed.

(** X10. The read URLs that the download requests are those of the
    selected items, each requested exactly once, in some order, with the
    image type ["full"]: no item is skipped, none is requested twice, and
    nothing else is requested. *)
Theorem download_requests_each_item_once
    (output_dir : string) (sample_ids filenames : list string) (max_workers : Z)
    (verbose : bool) (s : Store W) :
  List.filter is_read_url_request
    (events (download_all api dataset_id output_dir sample_ids filenames max_workers
               verbose s))
  ≡ₚ map (fun i => GetSampleImageReadUrlById dataset_id i.1 "full")
         (zip sample_ids filenames).
Proof.
  destruct (executor_map_lambda__total api dataset_id output_dir verbose (pool_choice api)
              (zip sample_ids filenames) s)
    as (order & done & results & s1 & evs & _ & _ & _ & Hpool & _ & Hreq & _).
  rewrite (download_all_run api dataset_id output_dir sample_ids filenames max_workers
             verbose s s1 results evs Hpool).
  unfold events. simpl.
  rewrite List.filter_app, filter_header_events by reflexivity. simpl.
  rewrite List.filter_app, filter_aggregate_events, app_nil_r by reflexivity.
  exact Hreq.
Qed.

Lemma run_tasks_progress (output_dir : string) (verbose : bool)
    (order : list (nat * (string * string))) (s s1 : Store W) (done : list (nat * bool))
    (evs : list Event) :
  run_tasks (lambda_ api dataset_id output_dir verbose) order s = (inr done, s1, evs) ->
  List.filter is_progress evs =
    if verbose then repeat (TqdmUpdate 1) (length order) else [].
Proof.
  revert order s done s1 evs. apply run_tasks_inv.
  - intros _. now destruct verbose.
  - intros k [sample_id filename] rest s b sa evs done s1 evs' Hitem _ IH.
    destruct (lambda__events output_dir verbose sample_id filename s)
      as (b' & s' & steps & warned & Hrun & Hsteps & Hwarned).
    rewrite Hrun in Hitem. injection Hitem as <- <- <-.
    rewrite List.filter_app, IH. simpl. rewrite !List.filter_app.
    rewrite (filter_item_steps _ steps) by (auto; intros [] ?; simpl in *; congruence).
    assert (List.filter is_progress warned = []) as ->.
    { destruct b'; [now subst|]. destruct Hwarned as [e ->]. reflexivity. }
    now destruct verbose.
Qed.

(** X11. With [verbose], the download announces itself, opens a progress
    bar whose total is the number of selected sample ids, and updates the
    bar by one exactly once for every item, failed or not; without
    [verbose] it prints nothing and has no progress bar. *)
Theorem progress_is_reported_for_every_item
    (output_dir : string) (sample_ids filenames : list string) (max_workers : Z)
    (verbose : bool) (s : Store W) :
  List.filter is_progress
    (events (download_all api dataset_id output_dir sample_ids filenames max_workers
               verbose s)) =
  if verbose then
    header_events api sample_ids max_workers true ++
    repeat (TqdmUpdate 1) (length (zip sample_ids filenames))
  else [].
Proof.
  destruct (pool_run output_dir verbose (zip sample_ids filenames) s)
    as (order & done & results & s1 & evs & Hperm & Hrun & Hpool & _).
  rewrite (download_all_run api dataset_id output_dir sample_ids filenames max_workers
             verbose s s1 results evs Hpool).
  unfold events. simpl.
  rewrite List.filter_app. simpl. rewrite List.filter_app.
  rewrite filter_aggregate_events, app_nil_r by reflexivity.
  rewrite (run_tasks_progress output_dir verbose order s s1 done evs Hrun).
  rewrite (Permutation_length Hperm), length_zip, length_seq, Nat.min_id.
  destruct verbose; reflexivity.
Qed.

Lemma run_tasks_warnings (output_dir : string) (verbose : bool)
    (order : list (nat * (string * string))) (s s1 : Store W) (done : list (nat * bool))
    (evs : list Event) :
  run_tasks (lambda_ api dataset_id output_dir verbose) order s = (inr done, s1, evs) ->
  length (List.filter is_item_warning evs) = count_false done.*2 /\
  length (List.filter is_warning evs) = count_false done.*2.
Proof.
  revert order s done s1 evs. apply run_tasks_inv.
  - intros _. split; reflexivity.
  - intros k [sample_id filename] rest s b sa evs done s1 evs' Hitem _ [IH IH'].
    destruct (lambda__events output_dir verbose sample_id filename s)
      as (b' & s' & steps & warned & Hrun & Hsteps & Hwarned).
    rewrite Hrun in Hitem. injection Hitem as <- <- <-.
    rewrite !List.filter_app, !length_app, IH, IH'. simpl. rewrite !List.filter_app.
    rewrite !(filter_item_steps _ steps) by (auto; intros [] ?; simpl in *; congruence).
    assert (List.filter is_item_warning (tqdm_events verbose) = [] /\
            List.filter is_warning (tqdm_events verbose) = []) as [-> ->]
      by (now destruct verbose).
    unfold count_false. destruct b'; simpl.
    + subst warned. split; reflexivity.
    + destruct Hwarned as [e ->].
      assert (Hw : is_item_warning (Warn (item_warning filename e)) = true)
        by apply (String_prefix_app "Downloading of image ").
      cbn [List.filter is_warning]. rewrite Hw. split; reflexivity.
Qed.

(** X12. The download warns exactly once for every item whose result is
    [False], and once more (the aggregate warning) when there is such an
    item: the number of its warnings is the number of failed items, plus
    one when some item failed. *)
Theorem one_warning_per_failed_item
    (output_dir : string) (sample_ids filenames : list string) (max_workers : Z)
    (verbose : bool) (s : Store W) :
  let run :=
    download_all api dataset_id output_dir sample_ids filenames max_workers verbose s in
  exists results s1 evs,
    executor_map (pool_choice api) (lambda_ api dataset_id output_dir verbose)
      (zip sample_ids filenames) s = (inr results, s1, evs) /\
    length (List.filter is_item_warning (events run)) = count_false results /\
    length (List.filter is_aggregate_warning (events run)) =
      (if all results then 0 else 1)%nat /\
    length (List.filter is_warning (events run)) =
      (count_false results + if all results then 0 else 1)%nat.
Proof.
  intros run. subst run.
  destruct (pool_run output_dir verbose (zip sample_ids filenames) s)
    as (order & done & results & s1 & evs & Hperm & Hrun & Hpool & _ & _ & Hdone).
  exists results, s1, evs. split; [exact Hpool|].
  rewrite (download_all_run api dataset_id output_dir sample_ids filenames max_workers
             verbose s s1 results evs Hpool).
  destruct (run_tasks_warnings output_dir verbose order s s1 done evs Hrun) as [Hitem Hwarn].
  destruct (executor_map_lambda__total api dataset_id output_dir verbose (pool_choice api)
              (zip sample_ids filenames) s)
    as (order' & done' & results' & s1' & evs' & _ & _ & _ & Hpool' & _ & _ & Hagg & _).
  rewrite Hpool in Hpool'. injection Hpool' as <- <- <-.
  assert (Hcount : count_false done.*2 = count_false results).
  { unfold count_false. apply filter_length_Permutation.
    rewrite Hdone, snd_zip by (rewrite length_seq; lia). reflexivity. }
  unfold events. simpl.
  rewrite !List.filter_app, !filter_header_events by reflexivity. simpl.
  rewrite !List.filter_app, !length_app, Hitem, Hwarn, Hagg, Hcount.
  unfold aggregate_events.
  destruct (index_of false results) as [k|] eqn:Hidx.
  - assert (all results = false) as ->.
    { destruct (all results) eqn:Hall; [|reflexivity].
      apply index_of_false_None in Hall. congruence. }
    simpl. repeat split; lia.
  - apply index_of_false_None in Hidx. rewrite Hidx. simpl. repeat split; lia.
Qed.

Lemma run_tasks_files (output_dir : string) (verbose : bool)
    (order : list (nat * (string * string))) (s s1 : Store W) (done : list (nat * bool))
    (evs : list Event) :
  run_tasks (lambda_ api dataset_id output_dir verbose) order s = (inr done, s1, evs) ->
  (forall p, (forall k i, (k, i) ∈ order -> os_path_join api output_dir i.2 <> p) ->
     files s1 !! p = files s !! p) /\
  (forall p, is_Some (files s !! p) -> is_Some (files s1 !! p)) /\
  Forall2 (fun task future =>
             task.1 = future.1 /\
             (future.2 = true ->
              is_Some (files s1 !! os_path_join api output_dir task.2.2)))
          order done.
Proof.
  revert order s done s1 evs. apply run_tasks_inv.
  - intros s0. split; [reflexivity|]. split; [auto|constructor].
  - intros k [sample_id filename] rest s0 b sa evs done s1 evs' Hitem _ (IHo & IHm & IHd).
    destruct (lambda__files output_dir verbose sample_id filename s0)
      as (b' & s' & evs0 & Hrun & Hother & Hmono & Hsaved).
    rewrite Hrun in Hitem. injection Hitem as <- <- <-.
    split; [|split].
    + intros p Hp. rewrite IHo.
      * apply Hother. intros ->. apply (Hp k (sample_id, filename)); [left|reflexivity].
      * intros k' i Hin. apply (Hp k' i). now right.
    + auto.
    + constructor; [|exact IHd]. simpl. split; [reflexivity|]. auto.
Qed.

(** X13. The download changes no file other than those of the selected
    items (the paths that join [output_dir] and a selected filename) and
    removes no file: a path that held a file before the download holds
    one after it. *)
Theorem download_leaves_other_files
    (output_dir : string) (sample_ids filenames : list string) (max_workers : Z)
    (verbose : bool) (s : Store W) :
  let run :=
    download_all api dataset_id output_dir sample_ids filenames max_workers verbose s in
  (forall p,
     (forall i, i ∈ zip sample_ids filenames -> os_path_join api output_dir i.2 <> p) ->
     files (store run) !! p = files s !! p) /\
  (forall p, is_Some (files s !! p) -> is_Some (files (store run) !! p)).
Proof.
  intros run. subst run.
  destruct (pool_run output_dir verbose (zip sample_ids filenames) s)
    as (order & done & results & s1 & evs & Hperm & Hrun & Hpool & _).
  rewrite (download_all_run api dataset_id output_dir sample_ids filenames max_workers
             verbose s s1 results evs Hpool).
  destruct (run_tasks_files output_dir verbose order s s1 done evs Hrun) as (Hother & Hmono & _).
  unfold store. simpl. split; [|exact Hmono].
  intros p Hp. apply Hother. intros k i Hin. apply Hp.
  rewrite Hperm in Hin. apply elem_of_zip_r in Hin. exact Hin.
Qed.

(** X14. Every item whose result is [True] has its file, at the path
    that joins [output_dir] and its filename, when the download returns,
    whatever the order in which the pool ran the items; so a download
    that emits no warning has saved every selected item. *)
Theorem successful_items_are_saved
    (output_dir : string) (sample_ids filenames : list string) (max_workers : Z)
    (verbose : bool) (s : Store W) :
  let run :=
    download_all api dataset_id output_dir sample_ids filenames max_workers verbose s in
  exists results s1 evs,
    executor_map (pool_choice api) (lambda_ api dataset_id output_dir verbose)
      (zip sample_ids filenames) s = (inr results, s1, evs) /\
    store run = s1 /\
    (forall k sample_id filename,
       zip sample_ids filenames !! k = Some (sample_id, filename) ->
       results !! k = Some true ->
       is_Some (files (store run) !! os_path_join api output_dir filename)) /\
    (List.filter is_warning (events run) = [] ->
     forall sample_id filename,
       (sample_id, filename) ∈ zip sample_ids filenames ->
       is_Some (files (store run) !! os_path_join api output_dir filename)).
Proof.
  intros run.
  destruct (pool_run output_dir verbose (zip sample_ids filenames) s)
    as (order & done & results & s1 & evs & Hperm & Hrun & Hpool & Hlen & Hpos & Hdone).
  exists results, s1, evs. split; [exact Hpool|].
  pose proof (download_all_run api dataset_id output_dir sample_ids filenames max_workers
                verbose s s1 results evs Hpool) as Hall.
  fold run in Hall.
  destruct (run_tasks_files output_dir verbose order s s1 done evs Hrun) as (_ & _ & Hsaved).
  assert (Hstore : store run = s1) by now rewrite Hall.
  assert (Hitem : forall k sample_id filename,
    zip sample_ids filenames !! k = Some (sample_id, filename) ->
    results !! k = Some true ->
    is_Some (files (store run) !! os_path_join api output_dir filename)).
  { intros k sample_id filename Hk Hres. rewrite Hstore.
    assert (Hin : (k, true) ∈ done).
    { rewrite Hdone. apply list_elem_of_lookup. exists k. apply lookup_zip_Some.
      split; [|exact Hres]. apply lookup_seq_lt. eapply lookup_lt_Some. exact Hres. }
    apply list_elem_of_lookup in Hin as [j Hj].
    destruct (Forall2_lookup_r _ _ _ _ _ Hsaved Hj) as ([k' [sid fn]] & Hj' & Hkey & Hfile).
    simpl in Hkey, Hfile. subst k'.
    assert (Hin' : (k, (sid, fn)) ∈ zip (seq 0 (length (zip sample_ids filenames)))
                                        (zip sample_ids filenames)).
    { rewrite <- Hperm. eapply list_elem_of_lookup_2. exact Hj'. }
    apply list_elem_of_lookup in Hin' as [j' Hj''].
    apply lookup_zip_Some in Hj'' as [Hseq Hzip].
    apply lookup_seq in Hseq as [-> _]. simpl in Hk.
    rewrite Hk in Hzip. injection Hzip as <- <-. auto. }
  split; [exact Hstore|]. split; [exact Hitem|].
  intros Hquiet sample_id filename Hin.
  apply list_elem_of_lookup in Hin as [k Hk].
  apply (Hitem k sample_id filename Hk).
  assert (Hk' : (k < length results)%nat) by (rewrite Hlen; eapply lookup_lt_Some; exact Hk).
  destruct (lookup_lt_is_Some_2 _ _ Hk') as [[|] Hb]; [exact Hb|].
  exfalso.
  assert (Hidx : index_of false results <> None).
  { intros Hnone. apply index_of_false_None in Hnone. unfold all in Hnone.
    rewrite forallb_forall in Hnone.
    specialize (Hnone false). rewrite <- list_elem_of_In in Hnone.
    discriminate Hnone. eapply list_elem_of_lookup_2. exact Hb. }
  rewrite Hall in Hquiet. unfold events in Hquiet. simpl in Hquiet.
  rewrite List.filter_app in Hquiet. apply app_eq_nil in Hquiet as [_ Hquiet].
  simpl in Hquiet. rewrite List.filter_app in Hquiet.
  apply app_eq_nil in Hquiet as [_ Hquiet].
  unfold aggregate_events in Hquiet.
  destruct (index_of false results); [discriminate|congruence].
Qed.
End Batch.

Section Verbosity.
Context {W Img : Type}.
Variable api : Collaborators W Img.
Variable dataset_id : string.

(** An item with and without [verbose]: the same result and store, and
    the same events but for the update of the bar. *)
Lemma lambda__verbose (output_dir : string) (i : string * string) (s : Store W) :
  exists b s1 evs,
    lambda_ api dataset_id output_dir false i s = (inr b, s1, evs) /\
    lambda_ api dataset_id output_dir true i s = (inr b, s1, evs ++ [TqdmUpdate 1]) /\
    List.filter is_not_progress evs = evs.
Proof.
  destruct i as [sample_id filename].
  destruct (lambda__events api dataset_id output_dir false sample_id filename s)
    as (b & s1 & steps & warned & Hrun & Hsteps & Hwarned).
  unfold tqdm_events in Hrun. rewrite app_nil_r in Hrun.
  exists b, s1. eexists. split; [exact Hrun|]. split.
  - rewrite lambda__run in Hrun |- *.
    destruct (download_image _ _ _ _ _ _) as [[[e|b'] s'] evs]; simpl in Hrun;
      injection Hrun as <- <- Hevs; rewrite <- Hevs; simpl;
      rewrite ?app_nil_r, <- ?app_assoc; reflexivity.
  - apply filter_Forall_id. unfold is_not_progress. constructor; [reflexivity|].
    rewrite !Forall_app. split.
    + eapply Forall_impl; [exact Hsteps|]. intros [] Hev; simpl in *; congruence.
    + destruct b; [subst; constructor|]. destruct Hwarned as [e ->]. now repeat constructor.
Qed.

Lemma run_pool_verbose (output_dir : string) (choose : nat -> nat) (n : nat)
    (pending : list (nat * (string * string))) (s : Store W) :
  exists done s1 evs evs',
    run_pool choose (lambda_ api dataset_id output_dir false) n pending s =
      (inr done, s1, evs) /\
    run_pool choose (lambda_ api dataset_id output_dir true) n pending s =
      (inr done, s1, evs') /\
    List.filter is_not_progress evs' = evs.
Proof.
  revert pending s. induction n as [|n IH]; intros pending s; simpl.
  - exists [], s, [], []. auto.
  - destruct (pending !! (choose (S n) mod length pending)%nat) as [[k i]|];
      [|exists [], s, [], []; auto].
    destruct (lambda__verbose output_dir i s) as (b & sa & evs0 & Hq & Hl & Hsilent).
    destruct (IH (delete (choose (S n) mod length pending)%nat pending) sa)
      as (done & s1 & evs & evs' & Hq' & Hl' & Hsilent').
    exists ((k, b) :: done), s1, (evs0 ++ evs), ((evs0 ++ [TqdmUpdate 1]) ++ evs').
    unfold bind, ret. rewrite Hq, Hl, Hq', Hl', !app_nil_r.
    split; [reflexivity|]. split; [reflexivity|].
    rewrite !List.filter_app, Hsilent, Hsilent'. simpl. now rewrite app_nil_r.
Qed.

Lemma executor_map_verbose (output_dir : string) (choose : nat -> nat)
    (downloadables : list (string * string)) (s : Store W) :
  exists results s1 evs evs',
    executor_map choose (lambda_ api dataset_id output_dir false) downloadables s =
      (inr results, s1, evs) /\
    executor_map choose (lambda_ api dataset_id output_dir true) downloadables s =
      (inr results, s1, evs') /\
    List.filter is_not_progress evs' = evs.
Proof.
  destruct (run_pool_verbose output_dir choose (length downloadables)
              (zip (seq 0 (length downloadables)) downloadables) s)
    as (done & s1 & evs & evs' & Hq & Hl & Hsilent).
  eexists _, s1, evs, evs'. unfold executor_map, bind, ret. rewrite Hq, Hl, !app_nil_r.
  split; [reflexivity|]. split; [reflexivity|exact Hsilent].
Qed.

(** X15. [verbose] changes nothing but the reporting: with and without
    it, and for the same choices of the pool, [download_dataset] returns
    the same result (or raises the same exception), leaves the same store
    and, the announcement and the progress bar apart, makes the same
    calls and emits the same warnings in the same order; and without it
    nothing is reported. *)
Theorem verbose_only_adds_progress
    (output_dir tag_name : string) (max_workers : Z) (s : Store W) :
  let quiet := download_dataset api dataset_id output_dir tag_name max_workers false s in
  let loud := download_dataset api dataset_id output_dir tag_name max_workers true s in
  result loud = result quiet /\
  store loud = store quiet /\
  List.filter is_not_progress (events loud) = events quiet /\
  List.filter is_progress (events quiet) = [].
Proof.
  intros quiet loud.
  assert (Hsame : result loud = result quiet /\ store loud = store quiet /\
                  List.filter is_not_progress (events loud) = events quiet).
  { subst quiet loud. unfold download_dataset, bind.
    destruct (resolve_tag_listing api dataset_id tag_name s) as [_ Hevs].
    destruct (resolve_tag api dataset_id tag_name s)
      as [[[e|[[indices sample_ids] filenames]] s1] evs0];
      unfold result, store, events in *; simpl in *.
    - repeat split. apply filter_Forall_id.
      eapply Forall_impl with (P := fun ev => ev ∈ listing_events dataset_id).
      + apply List.Forall_forall. intros ev Hin. apply list_elem_of_In in Hin.
        destruct Hevs as [rest ->]. apply elem_of_app. now left.
      + intros ev Hin. unfold listing_events in Hin.
        repeat (apply elem_of_cons in Hin as [->|Hin]; [reflexivity|]).
        now apply elem_of_nil in Hin.
    - destruct (executor_map_verbose output_dir (pool_choice api)
                  (zip sample_ids filenames) s1)
        as (results & s2 & evs & evs' & Hq & Hl & Hsilent).
      rewrite (download_all_run api dataset_id output_dir sample_ids filenames max_workers
                 false s1 s2 results evs Hq).
      rewrite (download_all_run api dataset_id output_dir sample_ids filenames max_workers
                 true s1 s2 results evs' Hl).
      simpl. repeat split.
      rewrite Hevs. rewrite !List.filter_app. simpl. rewrite List.filter_app, Hsilent.
      rewrite (filter_Forall_id is_not_progress (aggregate_events results));
        [reflexivity|].
      unfold aggregate_events.
      destruct (index_of false results); repeat constructor. }
  destruct Hsame as (Hres & Hstore & Hevs). repeat split; try assumption.
  rewrite <- Hevs. apply filter_filter_negb.
Qed.
End Verbosity.

(** * The range of the loss *)

Section RealSums.
Local Open Scope R_scope.





End RealSums.

Section Shapes.
Local Open Scope nat_scope.



End Shapes.



(** * The statements on concrete runs

    Runs of the client against the test double and of the loss on
    concrete tensors, obtained from the theorems above. *)

(** C1, on testable property 5: five items of which the one at index 2
    does not decode. The download phase returns normally, emits exactly
    one aggregate warning, which names index 2, and has written four
    files. And on five items of which those at indices 2 and 4 do not
    decode, run by a pool that takes the last submitted item first: the
    item at index 4 is the first to fail, and the aggregate warning
    names index 2, the first failure in the order of submission. *)
Lemma download_phase_never_raises_witness :
  let sample_ids := ["s0"; "s1"; "s2"; "s3"; "s4"] in
  let filenames := ["f0.png"; "f1.png"; "f2.png"; "f3.png"; "f4.png"] in
  let run :=
    download_all (demo srv_partial_failure) "ds" "/tmp/data" sample_ids filenames 8 true
      store0 in
  let run' :=
    download_all (demo srv_last_submitted_first) "ds" "/tmp/data" sample_ids filenames 8
      true store0 in
  (result run = inr tt /\
   List.filter is_aggregate_warning (events run) =
     [Warn "Warning: Unsuccessful download! Failed at image: 2"] /\
   size (files (store run)) = 4%nat) /\
  (result run' = inr tt /\
   List.filter is_aggregate_warning (events run') =
     [Warn "Warning: Unsuccessful download! Failed at image: 2"] /\
   List.filter is_warning (events run') =
     [Warn "Downloading of image f4.png failed with error cannot identify image file";
      Warn "Downloading of image f2.png failed with error cannot identify image file";
      Warn "Warning: Unsuccessful download! Failed at image: 2"]).
Proof.
  cbv zeta. split.
  - destruct (download_phase_never_raises (demo srv_partial_failure) "ds" "/tmp/data"
                ["s0"; "s1"; "s2"; "s3"; "s4"]
                ["f0.png"; "f1.png"; "f2.png"; "f3.png"; "f4.png"] 8 true store0)
      as [_ (order & done & results & s1 & evs & Hrun)].
    cbv zeta in Hrun. destruct Hrun as (_ & _ & _ & Hpool & _ & Hres & Hfail & _ & _).
    vm_compute in Hpool. injection Hpool as <- <- <-.
    split; [exact Hres|]. split.
    + refine (proj1 (Hfail 2%nat eq_refl _)).
      intros [|[|j]] Hj; [reflexivity|reflexivity|lia].
    + vm_compute. reflexivity.
  - destruct (download_phase_never_raises (demo srv_last_submitted_first) "ds" "/tmp/data"
                ["s0"; "s1"; "s2"; "s3"; "s4"]
                ["f0.png"; "f1.png"; "f2.png"; "f3.png"; "f4.png"] 8 true store0)
      as [_ (order & done & results & s1 & evs & Hrun)].
    cbv zeta in Hrun. destruct Hrun as (_ & _ & _ & Hpool & _ & Hres & Hfail & _ & _).
    vm_compute in Hpool. injection Hpool as <- <- <-.
    split; [exact Hres|]. split.
    + refine (proj1 (Hfail 2%nat eq_refl _)).
      intros [|[|j]] Hj; [reflexivity|reflexivity|lia].
    + vm_compute. reflexivity.
Defined.

(** C2, on a dataset without full images, and on a tag name that no tag
    of the dataset has: the run stops at the failed check. *)
Lemma download_dataset_checks_preconditions_witness :
  download_dataset (demo srv_thumbnails) "ds" "/tmp/data" "initial-tag" 8 true store0 =
    (inl (Raise ValueError "Dataset with id ds has no downloadable images!"),
     {| world := 1%nat; files := ∅ |}, [GetDatasetById "ds"]) /\
  download_dataset (demo srv_index_alignment) "ds" "/tmp/data" "no-such-tag" 8 true store0 =
    (inl (Raise ValueError "Dataset with id ds has no tag no-such-tag!"),
     {| world := 2%nat; files := ∅ |}, [GetDatasetById "ds"; GetAllTags]).
Proof.
  split.
  - apply (proj1 (download_dataset_checks_preconditions (demo srv_thumbnails) "ds"
                    "/tmp/data" "initial-tag" 8 true store0)
             {| img_type := THUMBNAIL |} 1%nat);
      [reflexivity|discriminate].
  - apply (proj2 (download_dataset_checks_preconditions (demo srv_index_alignment) "ds"
                    "/tmp/data" "no-such-tag" 8 true store0)
             {| img_type := FULL |} 1%nat (demo_tags srv_index_alignment) 2%nat);
      [reflexivity|reflexivity|reflexivity|].
    intros tag [<-|[<-|[]]]; discriminate.
Defined.

(** C3, on testable property 3: sample ids a, b, c, d, filenames w, x, y,
    z and the bitmask with bits 1 and 3 set select b, d and x, z. *)
Lemma tag_resolution_selects_indices_witness :
  result (resolve_tag (demo srv_index_alignment) "ds" "initial-tag" store0) =
    inr ([1; 3]%nat, ["b"; "d"], ["x"; "z"]).
Proof.
  destruct (tag_resolution_selects_indices (demo srv_index_alignment) "ds" "initial-tag"
              store0 {| img_type := FULL |} 1%nat (demo_tags srv_index_alignment) 2%nat
              (TagData.make "t1" "initial-tag" "a")
              ["a"; "b"; "c"; "d"] 3%nat [1; 3]%nat ["w"; "x"; "y"; "z"] 4%nat)
    as (sample_ids & filenames & Hres & Hids & Hfns & _);
    [reflexivity|reflexivity|reflexivity|reflexivity|reflexivity|reflexivity|reflexivity
    |repeat constructor|repeat constructor|].
  rewrite Hres. unfold result. cbn [fst].
  destruct sample_ids as [|a [|b [|c sample_ids]]]; try discriminate.
  destruct filenames as [|x [|y [|z filenames]]]; try discriminate.
  injection Hids as -> ->. injection Hfns as -> ->. reflexivity.
Defined.

(** C4 as stated fails: with no item and [max_workers = 8] the pool has
    one worker, which is more workers than items. *)
Lemma more_workers_than_items :
  clamp_max_workers [] 8 = 1 /\
  ~ (clamp_max_workers [] 8 <= Z.of_nat (length (@nil string))).
Proof. split; [reflexivity|]. vm_compute. intros Hle. apply Hle. reflexivity. Qed.

(** C5, on testable property 5: the third of five items fails to decode;
    it is warned about and its result is [False] at index 2 of the five
    results. *)
Lemma failed_item_is_warned_and_skipped_witness :
  let sample_ids := ["s0"; "s1"; "s2"; "s3"; "s4"] in
  let filenames := ["f0.png"; "f1.png"; "f2.png"; "f3.png"; "f4.png"] in
  let run :=
    executor_map (fun _ => 0%nat) (lambda_ (demo srv_partial_failure) "ds" "/tmp/data" true)
      (zip sample_ids filenames) store0 in
  zip sample_ids filenames !! 2%nat = Some ("s2", "f2.png") /\
  (exists results,
     result run = inr results /\ length results = 5%nat /\
     results !! 2%nat = Some false) /\
  In (Warn "Downloading of image f2.png failed with error cannot identify image file")
     (events run).
Proof.
  cbv zeta. split; [reflexivity|].
  destruct (failed_item_is_warned_and_skipped (demo srv_partial_failure) "ds" "/tmp/data"
              ["s0"; "s1"; "s2"; "s3"; "s4"]
              ["f0.png"; "f1.png"; "f2.png"; "f3.png"; "f4.png"] 8 true
              2%nat "s2" "f2.png" store0 eq_refl)
    as (before & after & r_before & s_k & evs_before & _ & _ & Hraise).
  destruct (Hraise (Raise (OtherException "PIL.UnidentifiedImageError")
                          "cannot identify image file"))
    as (s_e & evs_e & r_after & s1 & evs_after & results & Hrun).
  { right. eexists _, _. split; [reflexivity|].
    right. eexists _, _. split; [reflexivity|].
    left. reflexivity. }
  cbv zeta in Hrun. destruct Hrun as (_ & _ & _ & Hexec & Hlen & Hres & _).
  change (pool_choice (demo srv_partial_failure)) with (fun _ : nat => 0%nat) in Hexec.
  rewrite Hexec. unfold result, events. cbn [fst snd]. split.
  - exists results. auto.
  - rewrite !in_app_iff. right. left. right. left. left. reflexivity.
Defined.

(** C7, on the descriptors of testable property 6 and a path that already
    holds a file: the CSV of the descriptor named default_b replaces
    it. *)
Lemma download_embeddings_csv_latest_default_witness :
  download_embeddings_csv (demo srv_index_alignment) "ds" "/tmp/embeddings.csv"
    store_stale_csv =
  (inr tt,
   {| world := 3%nat;
      files := {[ "/tmp/embeddings.csv" := "csv@https://signed/csv/e2" ]} |},
   [GetEmbeddingsByDatasetId "ds"; GetEmbeddingsCsvReadUrlById "ds" "e2";
    RequestsGet "https://signed/csv/e2"]).
Proof.
  destruct (proj2 (download_embeddings_csv_latest_default (demo srv_index_alignment) "ds"
                     "/tmp/embeddings.csv" store_stale_csv embeddings_example 1%nat
                     eq_refl))
    as (last_embedding & Hlatest & _ & _ & _ & Hrun).
  { exists (DatasetEmbeddingData.make "e1" "default_a" 100 true false).
    split; [now left|reflexivity]. }
  vm_compute in Hlatest. injection Hlatest as <-.
  cbv zeta in Hrun. destruct Hrun as (_ & _ & Hok).
  destruct (Hok "https://signed/csv/e2" 2%nat "csv@https://signed/csv/e2" 3%nat
              eq_refl eq_refl) as [-> _].
  reflexivity.
Defined.

(** C8, on tensors of real numbers, whose addition is commutative: both
    orders of the arguments return the same loss. *)
Lemma forward_symmetric_witness :
  (forall a b : R, (a + b = b + a)%R) /\
  exists loss : R,
    result (forward (Tuple [ones [2; 3]%nat; ramp [2; 3]%nat])
                    (Tuple [ramp [1; 3]%nat; ones [2; 3]%nat]) tt) = inr loss /\
    result (forward (Tuple [ramp [1; 3]%nat; ones [2; 3]%nat])
                    (Tuple [ones [2; 3]%nat; ramp [2; 3]%nat]) tt) = inr loss.
Proof.
  split; [exact Rplus_comm|].
  eexists.
  apply (proj2 (@forward_symmetric tensor R RealTorch (ones [2; 3]%nat) (ramp [2; 3]%nat)
                  (ramp [1; 3]%nat) (ones [2; 3]%nat) tt Rplus_comm)); reflexivity.
Defined.

(** C9, on a tag with five bits set: a dataset listing four sample ids
    raises after the listing of the sample ids; a dataset listing five
    sample ids and four filenames raises after the listing of the
    filenames. *)
Lemma download_dataset_index_out_of_range_witness :
  download_dataset (demo srv_short_sample_ids) "ds" "/tmp/data" "initial-tag" 8 true store0 =
    (inl (Raise IndexError "list index out of range"),
     {| world := 3%nat; files := ∅ |},
     [GetDatasetById "ds"; GetAllTags; GetSampleMappingsByDatasetId "ds" 25000 "_id"]) /\
  download_dataset (demo srv_short_filenames) "ds" "/tmp/data" "initial-tag" 8 true store0 =
    (inl (Raise IndexError "list index out of range"),
     {| world := 4%nat; files := ∅ |},
     [GetDatasetById "ds"; GetAllTags; GetSampleMappingsByDatasetId "ds" 25000 "_id";
      GetFilenames]).
Proof.
  split.
  - apply (proj1 (download_dataset_index_out_of_range (demo srv_short_sample_ids) "ds"
                    "/tmp/data" "initial-tag" 8 true store0
                    {| img_type := FULL |} 1%nat (demo_tags srv_short_sample_ids) 2%nat
                    (TagData.make "t1" "initial-tag" "1f")
                    ["s0"; "s1"; "s2"; "s3"] 3%nat [0; 1; 2; 3; 4]%nat
                    eq_refl eq_refl eq_refl eq_refl eq_refl eq_refl)).
    do 4 apply Exists_cons_tl. apply Exists_cons_hd. simpl. lia.
  - apply (proj1 (proj2 (download_dataset_index_out_of_range (demo srv_short_filenames) "ds"
                    "/tmp/data" "initial-tag" 8 true store0
                    {| img_type := FULL |} 1%nat (demo_tags srv_short_filenames) 2%nat
                    (TagData.make "t1" "initial-tag" "1f")
                    ["s0"; "s1"; "s2"; "s3"; "s4"] 3%nat [0; 1; 2; 3; 4]%nat
                    eq_refl eq_refl eq_refl eq_refl eq_refl eq_refl))
             ["f0.png"; "f1.png"; "f2.png"; "f3.png"] 4%nat).
    + repeat constructor.
    + reflexivity.
    + do 4 apply Exists_cons_tl. apply Exists_cons_hd. simpl. lia.
Defined.

(** C10 (as amended), on arguments that do not unpack into two tensors:
    a tensor with three slices, and a 0-dimensional tensor; [forward]
    raises the error of the unpacking and computes no similarity. *)
Lemma forward_unpacks_two_witness :
  forward (Tensor (ones [3; 2]%nat)) (Tuple [ones [2]%nat; ones [2]%nat]) tt =
    (inl (Raise ValueError "too many values to unpack (expected 2)"), tt, []) /\
  forward (Tuple [ones [2]%nat; ones [2]%nat]) (Tensor (ones [])) tt =
    (inl (Raise TypeError "iteration over a 0-d tensor"), tt, []).
Proof.
  split.
  - apply (proj1 (@forward_unpacks_two tensor R RealTorch _ _ tt)). reflexivity.
  - apply (proj1 (proj2 (@forward_unpacks_two tensor R RealTorch _ _ tt))
             (ones [2]%nat, ones [2]%nat)); reflexivity.
Defined.

Lemma Rmax_sqrt2_eps : Rmax (sqrt 2) eps = sqrt 2.
Proof.
  apply Rmax_left. unfold eps.
  assert (1 <= sqrt 2)%R.
  { rewrite <- sqrt_1 at 1. apply sqrt_le_1_alt. lra. }
  assert (/ 100000000 <= / 1)%R by (apply Rinv_le_contravar; lra).
  rewrite Rinv_1 in *. lra.
Qed.

(** C10 as stated fails: a plain single tensor of shape (2, 1, 2) is a
    valid input of [forward]; on [torch.ones(2, 1, 2)] for both arguments
    it unpacks each into two slices of shape (1, 2) and returns the
    loss -1. *)
Lemma forward_accepts_single_tensor :
  result (forward (Tensor (ones [2; 1; 2]%nat)) (Tensor (ones [2; 1; 2]%nat)) tt)
  = inr (-1)%R.
Proof.
  cbv -[Rplus Rmult Rdiv Rmax sqrt eps INR Ropp Rinv IZR].
  f_equal.
  replace (1 * 1 + (1 * 1 + 0))%R with 2%R by lra.
  rewrite Rmax_sqrt2_eps, sqrt_sqrt by lra.
  simpl INR. lra.
Qed.

(** X2, on the descriptors of testable property 6, whose default
    descriptors were created at different times, listed in the reverse
    order. *)
Lemma latest_default_order_independent_witness :
  _get_latest_default_embedding_data embeddings_example =
  _get_latest_default_embedding_data (reverse embeddings_example).
Proof.
  apply latest_default_order_independent.
  - symmetry. apply reverse_Permutation.
  - intros e e' [<-|[<-|[<-|[]]]] [<-|[<-|[<-|[]]]] Hd Hd' Hat;
      try reflexivity; discriminate.
Defined.

(** X3, on the descriptors of testable property 6: the lookup of
    default_b returns the second descriptor. *)
Lemma get_embedding_data_by_name_first_match_witness :
  get_embedding_data_by_name (demo srv_index_alignment) "ds" "default_b" store0 =
  (inr (DatasetEmbeddingData.make "e2" "default_b" 200 true false),
   {| world := 1%nat; files := ∅ |}, [GetEmbeddingsByDatasetId "ds"]).
Proof.
  apply (proj2 (get_embedding_data_by_name_first_match (demo srv_index_alignment) "ds"
                  "default_b" store0 embeddings_example 1%nat eq_refl
                  (DatasetEmbeddingData.make "e2" "default_b" 200 true false))).
  exists [DatasetEmbeddingData.make "e1" "default_a" 100 true false],
         [DatasetEmbeddingData.make "e3" "custom" 300 true false].
  split; [reflexivity|]. split; [reflexivity|].
  intros e' [<-|[]]. discriminate.
Defined.

(** X9, on a dataset with two tags named initial-tag, whose bitmasks
    select the samples 0, 1 and the samples 2, 3: the samples of the
    first are resolved. *)
Lemma first_tag_with_the_name_is_used_witness :
  result (resolve_tag (demo srv_duplicate_tags) "ds" "initial-tag" store0) =
    inr ([0; 1]%nat, ["a"; "b"], ["w"; "x"]) /\
  BitMask_decode "3" = inr [0; 1]%nat.
Proof.
  split; [reflexivity|].
  apply (first_tag_with_the_name_is_used (demo srv_duplicate_tags) "ds" "initial-tag" store0
           {| img_type := FULL |} 1%nat []
           [TagData.make "t1" "initial-tag" "c"] (TagData.make "t0" "initial-tag" "3") 2%nat
           eq_refl eq_refl eq_refl eq_refl
           (fun t (Hin : In t []) => match Hin with end)
           [0; 1]%nat ["a"; "b"] ["w"; "x"] eq_refl).
Defined.


(** X17, on the descriptors of testable property 6, whose names are
    distinct: the lookup of the name of the latest default descriptor
    returns it. *)
Lemma latest_default_is_found_by_its_name_witness :
  result (get_embedding_data_by_name (demo srv_index_alignment) "ds" "default_b" store0) =
    inr (DatasetEmbeddingData.make "e2" "default_b" 200 true false).
Proof.
  apply (latest_default_is_found_by_its_name (demo srv_index_alignment) "ds" store0
           embeddings_example 1%nat
           (DatasetEmbeddingData.make "e2" "default_b" 200 true false) eq_refl);
    [|reflexivity].
  compute_done.
Defined.
